(** * Climate meter (Arduino Nano, Modbus RTU slave): model and properties

    Shallow embedding of [climate_meter.ino], built for the ATmega328 of the
    Arduino Nano named in the sketch's header: [byte] is 8 bits wide,
    [unsigned int] and [unsigned short] are 16 bits wide, [float] is an
    IEEE-754 binary32 value, and objects are stored least significant byte
    first.  The sketch is modelled as it is compiled, that is with [DEBUG]
    left undefined, so every [DEBUG_*] macro expands to nothing and the body
    of [communicate] is present. *)

From Stdlib Require Import ZArith List Bool Lia QArith.
Import ListNotations.
Local Open Scope Z_scope.

(** ** Machine integers *)

Abbreviation byte := Z (only parsing).

Definition is_byte (b : Z) : Prop := 0 <= b < 256.

(** Conversion to the 8-bit type [byte]. *)
Definition to_byte (x : Z) : byte := x mod 256.

(** Conversion to the 16-bit types [unsigned int] and [unsigned short]. *)
Definition to_uint (x : Z) : Z := x mod 65536.

(** ** Partial operations

    Reading or writing outside an array is undefined in the source; the model
    answers [None] there, and the theorems below show that the sketch never
    gets there. *)

Definition bind {A B : Type} (c : option A) (k : A -> option B) : option B :=
  match c with
  | Some a => k a
  | None => None
  end.

Notation "x <- c ;; k" := (bind c (fun x => k))
  (at level 61, c at next level, right associativity).
Notation "' p <- c ;; k" := (bind c (fun x => let p := x in k))
  (at level 61, p pattern, c at next level, right associativity).

(** [a[i]] for an array [a] and an integer index [i]. *)
Definition array_get {A : Type} (a : list A) (i : Z) : option A :=
  if i <? 0 then None else nth_error a (Z.to_nat i).

(** [a[i] = v]. *)
Definition array_set {A : Type} (a : list A) (i : Z) (v : A) : option (list A) :=
  if (i <? 0) || (Z.of_nat (length a) <=? i) then None
  else Some (firstn (Z.to_nat i) a ++ v :: skipn (Z.to_nat i + 1) a).

(** [memcpy(dst + off, src, n)]: the first [n] bytes of [src] replace the
    [n] bytes of [dst] that start at offset [off]. *)
Definition memcpy (dst : list byte) (off : nat) (src : list byte) (n : nat)
  : option (list byte) :=
  if (length src <? n)%nat || (length dst <? off + n)%nat then None
  else Some (firstn off dst ++ firstn n src ++ skipn (off + n) dst).

(** ** Checksum tables *)

Definition crcHiTable : list byte := [
  0x00; 0xC1; 0x81; 0x40; 0x01; 0xC0; 0x80; 0x41; 0x01; 0xC0; 0x80; 0x41; 0x00; 0xC1; 0x81;
  0x40; 0x01; 0xC0; 0x80; 0x41; 0x00; 0xC1; 0x81; 0x40; 0x00; 0xC1; 0x81; 0x40; 0x01; 0xC0;
  0x80; 0x41; 0x01; 0xC0; 0x80; 0x41; 0x00; 0xC1; 0x81; 0x40; 0x00; 0xC1; 0x81; 0x40; 0x01;
  0xC0; 0x80; 0x41; 0x00; 0xC1; 0x81; 0x40; 0x01; 0xC0; 0x80; 0x41; 0x01; 0xC0; 0x80; 0x41;
  0x00; 0xC1; 0x81; 0x40; 0x01; 0xC0; 0x80; 0x41; 0x00; 0xC1; 0x81; 0x40; 0x00; 0xC1; 0x81;
  0x40; 0x01; 0xC0; 0x80; 0x41; 0x00; 0xC1; 0x81; 0x40; 0x01; 0xC0; 0x80; 0x41; 0x01; 0xC0;
  0x80; 0x41; 0x00; 0xC1; 0x81; 0x40; 0x00; 0xC1; 0x81; 0x40; 0x01; 0xC0; 0x80; 0x41; 0x01;
  0xC0; 0x80; 0x41; 0x00; 0xC1; 0x81; 0x40; 0x01; 0xC0; 0x80; 0x41; 0x00; 0xC1; 0x81; 0x40;
  0x00; 0xC1; 0x81; 0x40; 0x01; 0xC0; 0x80; 0x41; 0x01; 0xC0; 0x80; 0x41; 0x00; 0xC1; 0x81;
  0x40; 0x00; 0xC1; 0x81; 0x40; 0x01; 0xC0; 0x80; 0x41; 0x00; 0xC1; 0x81; 0x40; 0x01; 0xC0;
  0x80; 0x41; 0x01; 0xC0; 0x80; 0x41; 0x00; 0xC1; 0x81; 0x40; 0x00; 0xC1; 0x81; 0x40; 0x01;
  0xC0; 0x80; 0x41; 0x01; 0xC0; 0x80; 0x41; 0x00; 0xC1; 0x81; 0x40; 0x01; 0xC0; 0x80; 0x41;
  0x00; 0xC1; 0x81; 0x40; 0x00; 0xC1; 0x81; 0x40; 0x01; 0xC0; 0x80; 0x41; 0x00; 0xC1; 0x81;
  0x40; 0x01; 0xC0; 0x80; 0x41; 0x01; 0xC0; 0x80; 0x41; 0x00; 0xC1; 0x81; 0x40; 0x01; 0xC0;
  0x80; 0x41; 0x00; 0xC1; 0x81; 0x40; 0x00; 0xC1; 0x81; 0x40; 0x01; 0xC0; 0x80; 0x41; 0x01;
  0xC0; 0x80; 0x41; 0x00; 0xC1; 0x81; 0x40; 0x00; 0xC1; 0x81; 0x40; 0x01; 0xC0; 0x80; 0x41;
  0x00; 0xC1; 0x81; 0x40; 0x01; 0xC0; 0x80; 0x41; 0x01; 0xC0; 0x80; 0x41; 0x00; 0xC1; 0x81;
  0x40
]%Z.

Definition crcLoTable : list byte := [
  0x00; 0xC0; 0xC1; 0x01; 0xC3; 0x03; 0x02; 0xC2; 0xC6; 0x06; 0x07; 0xC7; 0x05; 0xC5; 0xC4;
  0x04; 0xCC; 0x0C; 0x0D; 0xCD; 0x0F; 0xCF; 0xCE; 0x0E; 0x0A; 0xCA; 0xCB; 0x0B; 0xC9; 0x09;
  0x08; 0xC8; 0xD8; 0x18; 0x19; 0xD9; 0x1B; 0xDB; 0xDA; 0x1A; 0x1E; 0xDE; 0xDF; 0x1F; 0xDD;
  0x1D; 0x1C; 0xDC; 0x14; 0xD4; 0xD5; 0x15; 0xD7; 0x17; 0x16; 0xD6; 0xD2; 0x12; 0x13; 0xD3;
  0x11; 0xD1; 0xD0; 0x10; 0xF0; 0x30; 0x31; 0xF1; 0x33; 0xF3; 0xF2; 0x32; 0x36; 0xF6; 0xF7;
  0x37; 0xF5; 0x35; 0x34; 0xF4; 0x3C; 0xFC; 0xFD; 0x3D; 0xFF; 0x3F; 0x3E; 0xFE; 0xFA; 0x3A;
  0x3B; 0xFB; 0x39; 0xF9; 0xF8; 0x38; 0x28; 0xE8; 0xE9; 0x29; 0xEB; 0x2B; 0x2A; 0xEA; 0xEE;
  0x2E; 0x2F; 0xEF; 0x2D; 0xED; 0xEC; 0x2C; 0xE4; 0x24; 0x25; 0xE5; 0x27; 0xE7; 0xE6; 0x26;
  0x22; 0xE2; 0xE3; 0x23; 0xE1; 0x21; 0x20; 0xE0; 0xA0; 0x60; 0x61; 0xA1; 0x63; 0xA3; 0xA2;
  0x62; 0x66; 0xA6; 0xA7; 0x67; 0xA5; 0x65; 0x64; 0xA4; 0x6C; 0xAC; 0xAD; 0x6D; 0xAF; 0x6F;
  0x6E; 0xAE; 0xAA; 0x6A; 0x6B; 0xAB; 0x69; 0xA9; 0xA8; 0x68; 0x78; 0xB8; 0xB9; 0x79; 0xBB;
  0x7B; 0x7A; 0xBA; 0xBE; 0x7E; 0x7F; 0xBF; 0x7D; 0xBD; 0xBC; 0x7C; 0xB4; 0x74; 0x75; 0xB5;
  0x77; 0xB7; 0xB6; 0x76; 0x72; 0xB2; 0xB3; 0x73; 0xB1; 0x71; 0x70; 0xB0; 0x50; 0x90; 0x91;
  0x51; 0x93; 0x53; 0x52; 0x92; 0x96; 0x56; 0x57; 0x97; 0x55; 0x95; 0x94; 0x54; 0x9C; 0x5C;
  0x5D; 0x9D; 0x5F; 0x9F; 0x9E; 0x5E; 0x5A; 0x9A; 0x9B; 0x5B; 0x99; 0x59; 0x58; 0x98; 0x88;
  0x48; 0x49; 0x89; 0x4B; 0x8B; 0x8A; 0x4A; 0x4E; 0x8E; 0x8F; 0x4F; 0x8D; 0x4D; 0x4C; 0x8C;
  0x44; 0x84; 0x85; 0x45; 0x87; 0x47; 0x46; 0x86; 0x82; 0x42; 0x43; 0x83; 0x41; 0x81; 0x80;
  0x40
]%Z.

(** ** Checksum engine *)

(** The [while (len--)] loop of [CRC16]; [buf] is the part of the buffer from
    the current position of the pointer on. *)
Fixpoint CRC16_loop (buf : list byte) (len : nat) (crcHi crcLo : byte)
  {struct len} : option (byte * byte) :=
  match len with
  | O => Some (crcHi, crcLo)
  | S len' =>
      match buf with
      | [] => None
      | b :: buf' =>
          let index := to_uint (Z.lxor crcLo b) in
          hi <- array_get crcHiTable index ;;
          lo <- array_get crcLoTable index ;;
          let crcLo' := to_byte (Z.lxor crcHi hi) in
          let crcHi' := lo in
          CRC16_loop buf' len' crcHi' crcLo'
      end
  end.

Definition CRC16 (buf : list byte) (len : nat) : option Z :=
  '(crcHi, crcLo) <- CRC16_loop buf len 0xFF 0xFF ;;
  Some (to_uint (Z.lor (Z.shiftl crcHi 8) crcLo)).

(** *** Reference CRC-16

    The bit-at-a-time CRC-16 the specification names: register initialised
    to 0xFFFF, reflected polynomial 0xA001, one input byte folded into the
    low byte and then eight shift steps, no final inversion. *)

Definition crc16_ref_shift (crc : Z) : Z :=
  if Z.odd crc then Z.lxor (Z.shiftr crc 1) 0xA001 else Z.shiftr crc 1.

Definition crc16_ref_byte (crc : Z) (b : byte) : Z :=
  Nat.iter 8 crc16_ref_shift (Z.lxor crc b).

Definition crc16_reference (buf : list byte) : Z :=
  fold_left crc16_ref_byte buf 0xFFFF.

(** The bytes of the ASCII string "123456789", whose CRC-16 under these
    parameters is the published check value 0x4B37. *)
Definition check_vector : list byte :=
  [0x31; 0x32; 0x33; 0x34; 0x35; 0x36; 0x37; 0x38; 0x39].

(** *** Exhaustive checks over bytes *)

Definition all_bytes : list Z := map Z.of_nat (seq 0 256).

Definition is_byteb (b : Z) : bool := (0 <=? b) && (b <? 256).

Definition word_of (crcHi crcLo : byte) : Z := Z.lor (Z.shiftl crcHi 8) crcLo.

(** One table step agrees with eight reference shifts, for a register whose
    high byte is [hi] and whose low byte has already been xor-ed with the
    input byte to give [idx]. *)
Definition step_ok (hi idx : Z) : bool :=
  match array_get crcHiTable idx, array_get crcLoTable idx with
  | Some h, Some l =>
      is_byteb l && is_byteb (to_byte (Z.lxor hi h))
      && (to_uint (word_of hi idx) =? word_of hi idx)
      && (Nat.iter 8 crc16_ref_shift (word_of hi idx)
          =? word_of l (to_byte (Z.lxor hi h)))
  | _, _ => false
  end.

Definition xor_ok (a b : Z) : bool :=
  is_byteb (Z.lxor a b) && (to_uint (Z.lxor a b) =? Z.lxor a b).

Definition for_all_bytes2 (p : Z -> Z -> bool) : bool :=
  forallb (fun a => forallb (p a) all_bytes) all_bytes.

(** ** Floating-point readings

    A [float] is kept as its binary32 bit pattern: the sketch only moves
    readings around, tests them with [isnan] and copies their bytes. *)

Abbreviation float := Z (only parsing).

(** [EMPTY_VAL], the bit pattern of -100.0. *)
Definition EMPTY_VAL : float := 0xC2C80000.

Definition ONE_WIRE_CNT : Z := 3.
Definition MODBUS_BUF_LEN : nat := 33.

Definition float_sign (f : float) : bool := Z.testbit f 31.
Definition float_exponent (f : float) : Z := Z.land (Z.shiftr f 23) 0xFF.
Definition float_mantissa (f : float) : Z := Z.land f 0x7FFFFF.

Definition isnan (f : float) : bool :=
  (float_exponent f =? 255) && negb (float_mantissa f =? 0).

(** The number a bit pattern stands for; [None] for infinities and NaNs. *)
Definition float_value (f : float) : option Q :=
  let e := float_exponent f in
  let m := float_mantissa f in
  if e =? 255 then None
  else
    let mag := if e =? 0 then (inject_Z m * Qpower 2 (-149))%Q
               else (inject_Z (m + 2 ^ 23) * Qpower 2 (e - 150))%Q in
    Some (Qred (if float_sign f then Qopp mag else mag)).

(** The four bytes of a [float] object, as [memcpy] sees them. *)
Definition float_bytes (f : float) : list byte :=
  [f mod 256; (f / 256) mod 256; (f / 65536) mod 256; (f / 16777216) mod 256].

(** The bytes of an array of [float]. *)
Definition floats_bytes (a : list float) : list byte := flat_map float_bytes a.

(** The two bytes of an [unsigned short] object. *)
Definition ushort_bytes (x : Z) : list byte := [x mod 256; (x / 256) mod 256].

(** What a consumer does with a 4-byte field of a frame. *)
Definition float_of_bytes (bs : list byte) : option float :=
  match bs with
  | [b0; b1; b2; b3] => Some (b0 + 256 * b1 + 65536 * b2 + 16777216 * b3)
  | _ => None
  end.

(** ** Devices and program state *)

(** Calls into the sensor drivers and [Serial.write], the sketch's visible
    actions. *)
Inductive Event : Type :=
| BmpBegin
| BmpSetSampling
| BmpReadPressure
| BmpReadTemperature
| DhtBegin
| DhtReadHumidity
| DhtReadTemperature
| DsSetOneWire (i : Z)
| DsBegin (i : Z)
| DsGetAddress (i : Z)
| DsSetResolution (i : Z)
| DsRequestTemperatures (i : Z)
| DsGetTempCByIndex (i : Z)
| SerialWrite (buf : list byte).

(** The drivers are outside the sketch.  Each answer is a function of the
    number of actions made before the call, so that a device may answer
    differently every time; [serial_rx n] are the bytes that reach the
    serial receive buffer while driver call number [n] is in progress. *)
Record Devices : Type := {
  bmp_begin : bool;
  bmp_readPressure : nat -> float;
  bmp_readTemperature : nat -> float;
  dht_readHumidity : nat -> float;
  dht_readTemperature : nat -> float;
  ds_getAddress : Z -> bool;
  ds_getTempCByIndex : Z -> nat -> float;
  serial_rx : nat -> list byte
}.

(** The global variables of the sketch, the pending serial input and the
    actions made so far. *)
Record State : Type := mkState {
  bmpFound : bool;
  bmpP : float;
  bmpT : float;
  dhtH : float;
  dhtT : float;
  dsT : list float;
  modbusBuf : list byte;
  serialIn : list byte;
  trace : list Event
}.

Definition set_bmpFound (v : bool) (st : State) : State :=
  mkState v (bmpP st) (bmpT st) (dhtH st) (dhtT st) (dsT st)
          (modbusBuf st) (serialIn st) (trace st).
Definition set_bmpP (v : float) (st : State) : State :=
  mkState (bmpFound st) v (bmpT st) (dhtH st) (dhtT st) (dsT st)
          (modbusBuf st) (serialIn st) (trace st).
Definition set_bmpT (v : float) (st : State) : State :=
  mkState (bmpFound st) (bmpP st) v (dhtH st) (dhtT st) (dsT st)
          (modbusBuf st) (serialIn st) (trace st).
Definition set_dhtH (v : float) (st : State) : State :=
  mkState (bmpFound st) (bmpP st) (bmpT st) v (dhtT st) (dsT st)
          (modbusBuf st) (serialIn st) (trace st).
Definition set_dhtT (v : float) (st : State) : State :=
  mkState (bmpFound st) (bmpP st) (bmpT st) (dhtH st) v (dsT st)
          (modbusBuf st) (serialIn st) (trace st).
Definition set_dsT (v : list float) (st : State) : State :=
  mkState (bmpFound st) (bmpP st) (bmpT st) (dhtH st) (dhtT st) v
          (modbusBuf st) (serialIn st) (trace st).
Definition set_modbusBuf (v : list byte) (st : State) : State :=
  mkState (bmpFound st) (bmpP st) (bmpT st) (dhtH st) (dhtT st) (dsT st)
          v (serialIn st) (trace st).
Definition set_serialIn (v : list byte) (st : State) : State :=
  mkState (bmpFound st) (bmpP st) (bmpT st) (dhtH st) (dhtT st) (dsT st)
          (modbusBuf st) v (trace st).

(** The globals as their initialisers leave them. *)
Definition initial_state : State :=
  mkState false EMPTY_VAL EMPTY_VAL EMPTY_VAL EMPTY_VAL
          [EMPTY_VAL; EMPTY_VAL; EMPTY_VAL]
          ([0x00; 0x03; 0x1C] ++ repeat 0x00 30)
          [] [].

(** [Serial.write(buf, n)]. *)
Definition Serial_write (buf : list byte) (n : nat) (st : State) : option State :=
  if (length buf <? n)%nat then None
  else Some (mkState (bmpFound st) (bmpP st) (bmpT st) (dhtH st) (dhtT st)
                     (dsT st) (modbusBuf st) (serialIn st)
                     (trace st ++ [SerialWrite (firstn n buf)])).

(** The [while (Serial.available() > 0)] loop of [communicate] over the
    pending input [rx]. *)
Fixpoint drain (rx : list byte) (sendResponse : bool) : bool :=
  match rx with
  | [] => sendResponse
  | b :: rx' =>
      let inByte := to_byte b in
      drain rx' (if inByte =? 0xDF then true else sendResponse)
  end.

Definition communicate (st : State) : option State :=
  let sendResponse := drain (serialIn st) false in
  let st := set_serialIn [] st in
  if sendResponse then
    buf <- memcpy (modbusBuf st) 3 (float_bytes (bmpP st)) 4 ;;
    buf <- memcpy buf 7 (float_bytes (bmpT st)) 4 ;;
    buf <- memcpy buf 11 (float_bytes (dhtH st)) 4 ;;
    buf <- memcpy buf 15 (float_bytes (dhtT st)) 4 ;;
    buf <- memcpy buf 19 (floats_bytes (dsT st)) 12 ;;
    crc <- CRC16 buf (MODBUS_BUF_LEN - 2) ;;
    let crc := to_uint crc in
    buf <- memcpy buf 31 (ushort_bytes crc) 2 ;;
    Serial_write buf MODBUS_BUF_LEN (set_modbusBuf buf st)
  else Some st.

Section Sketch.

Variable env : Devices.

(** A call into a sensor driver: it is recorded, and the bytes received
    while it runs are queued. *)
Definition driver_call (e : Event) (st : State) : State :=
  mkState (bmpFound st) (bmpP st) (bmpT st) (dhtH st) (dhtT st) (dsT st)
          (modbusBuf st)
          (serialIn st ++ serial_rx env (length (trace st)))
          (trace st ++ [e]).

(** A driver call that returns a reading. *)
Definition driver_read (e : Event) (answer : nat -> float) (st : State)
  : float * State :=
  (answer (length (trace st)), driver_call e st).

Definition initBMP (st : State) : State :=
  let st := driver_call BmpBegin st in
  if bmp_begin env then
    let st := set_bmpFound true st in
    driver_call BmpSetSampling st
  else st.

Definition initDHT (st : State) : State := driver_call DhtBegin st.

(** The body of the [for] loop of [initDS]. *)
Definition initDS_body (st : State) (i : Z) : State :=
  let st := driver_call (DsSetOneWire i) st in
  let st := driver_call (DsBegin i) st in
  let st := driver_call (DsGetAddress i) st in
  if ds_getAddress env i then driver_call (DsSetResolution i) st else st.

Definition initDS (st : State) : State :=
  fold_left initDS_body (map Z.of_nat (seq 0 (Z.to_nat ONE_WIRE_CNT))) st.

Definition readBMP (st : State) : State :=
  if bmpFound st then
    let '(p, st) := driver_read BmpReadPressure (bmp_readPressure env) st in
    let st := set_bmpP p st in
    let '(t, st) := driver_read BmpReadTemperature (bmp_readTemperature env) st in
    set_bmpT t st
  else st.

Definition readDHT (st : State) : State :=
  let '(h, st) := driver_read DhtReadHumidity (dht_readHumidity env) st in
  let st := set_dhtH h st in
  let '(t, st) := driver_read DhtReadTemperature (dht_readTemperature env) st in
  let st := set_dhtT t st in
  if isnan (dhtH st) || isnan (dhtT st) then
    let st := set_dhtH EMPTY_VAL st in
    set_dhtT EMPTY_VAL st
  else st.

Definition readDS (index : Z) (st : State) : option State :=
  if (index <? 0) || (ONE_WIRE_CNT <=? index) then None
  else
    let st := driver_call (DsRequestTemperatures index) st in
    let '(t, st) :=
      driver_read (DsGetTempCByIndex index) (ds_getTempCByIndex env index) st in
    a <- array_set (dsT st) index t ;;
    Some (set_dsT a st).

Definition setup (st : State) : State :=
  let st := initBMP st in
  let st := initDHT st in
  initDS st.

Definition loop (st : State) : option State :=
  let st := readBMP st in
  st <- communicate st ;;
  let st := readDHT st in
  st <- communicate st ;;
  st <- readDS 0 st ;;
  st <- communicate st ;;
  st <- readDS 1 st ;;
  st <- communicate st ;;
  st <- readDS 2 st ;;
  communicate st.

(** [n] passes through [loop], the way the runtime calls it without end. *)
Fixpoint run (n : nat) (st : State) : option State :=
  match n with
  | O => Some st
  | S n' => st' <- loop st ;; run n' st'
  end.

(** States the sketch can be in between two of its steps. *)
Inductive reachable : State -> Prop :=
| reach_setup : reachable (setup initial_state)
| reach_readBMP st : reachable st -> reachable (readBMP st)
| reach_readDHT st : reachable st -> reachable (readDHT st)
| reach_readDS i st st' :
    reachable st -> readDS i st = Some st' -> reachable st'
| reach_communicate st st' :
    reachable st -> communicate st = Some st' -> reachable st'.

End Sketch.

(** ** Frames *)

(** The channels in the order of the register map. *)
Inductive SensorChannel : Type :=
| Pressure | PressureTemp | Humidity | HumidityTemp
| Probe0Temp | Probe1Temp | Probe2Temp.

Definition channels : list SensorChannel :=
  [Pressure; PressureTemp; Humidity; HumidityTemp;
   Probe0Temp; Probe1Temp; Probe2Temp].

Definition reading (st : State) (c : SensorChannel) : option float :=
  match c with
  | Pressure => Some (bmpP st)
  | PressureTemp => Some (bmpT st)
  | Humidity => Some (dhtH st)
  | HumidityTemp => Some (dhtT st)
  | Probe0Temp => array_get (dsT st) 0
  | Probe1Temp => array_get (dsT st) 1
  | Probe2Temp => array_get (dsT st) 2
  end.

Definition channel_offset (c : SensorChannel) : nat :=
  match c with
  | Pressure => 3
  | PressureTemp => 7
  | Humidity => 11
  | HumidityTemp => 15
  | Probe0Temp => 19
  | Probe1Temp => 23
  | Probe2Temp => 27
  end.

(** The seven readings held by a state. *)
Definition readings (st : State) : list float :=
  [bmpP st; bmpT st; dhtH st; dhtT st] ++ dsT st.

(** The 4-byte field of a frame at offset [off], and the reading a consumer
    decodes from it. *)
Definition frame_field (frame : list byte) (off : nat) : list byte :=
  firstn 4 (skipn off frame).

Definition decode_field (frame : list byte) (off : nat) : option float :=
  float_of_bytes (frame_field frame off).

(** The first 31 bytes of a response, and the whole response, written out. *)
Definition frame_body (st : State) : list byte :=
  [0x00; 0x03; 0x1C] ++ flat_map float_bytes (readings st).

Definition response_frame (st : State) : list byte :=
  frame_body st ++ ushort_bytes (crc16_reference (frame_body st)).

(** [communicate st] succeeds and writes exactly [frame]. *)
Definition emits (st : State) (frame : list byte) : Prop :=
  exists st', communicate st = Some st' /\
              trace st' = trace st ++ [SerialWrite frame].

(** What never changes: the sizes of the two arrays and the header bytes. *)
Definition wf (st : State) : Prop :=
  length (modbusBuf st) = MODBUS_BUF_LEN /\
  firstn 3 (modbusBuf st) = [0x00; 0x03; 0x1C] /\
  length (dsT st) = 3%nat.

(** What the handler answers in state [st]: one response frame when the
    pending input holds the trigger byte, nothing otherwise. *)
Definition response (st : State) : list Event :=
  if drain (serialIn st) false then [SerialWrite (response_frame st)] else [].

(** A handler call from state [fst ab] to state [snd ab] kept the readings
    and wrote the response of [fst ab], if any, and nothing else. *)
Definition answered (ab : State * State) : Prop :=
  readings (snd ab) = readings (fst ab) /\
  trace (snd ab) = trace (fst ab) ++ response (fst ab).

(** The number a consumer reads from the field at offset [off]. *)
Definition decode_value (frame : list byte) (off : nat) : option Q :=
  f <- decode_field frame off ;; float_value f.

(** ** Example stations *)

(** The request quoted in [communicate]: 00 03 00 00 00 0E C5 DF. *)
Definition request : list byte := [0x00; 0x03; 0x00; 0x00; 0x00; 0x0E; 0xC5; 0xDF].

(** A quiet NaN. *)
Definition qnan : float := 0x7FC00000.

(** Every sensor present and answering; the request arrives while the first
    driver call runs. *)
Definition bench : Devices := {|
  bmp_begin := true;
  bmp_readPressure := fun _ => 0x47C5E680;
  bmp_readTemperature := fun _ => 0x41B40000;
  dht_readHumidity := fun _ => 0x42340000;
  dht_readTemperature := fun _ => 0x41B00000;
  ds_getAddress := fun _ => true;
  ds_getTempCByIndex := fun i _ => if i =? 0 then 0x41A0CCCD else 0x419F3333;
  serial_rx := fun n => if (n =? 0)%nat then request else []
|}.

(** No sensor answers at start-up; reads of the probes come back as the
    probe driver's own "disconnected" value -127.0, the others as NaN. *)
Definition unplugged : Devices := {|
  bmp_begin := false;
  bmp_readPressure := fun _ => qnan;
  bmp_readTemperature := fun _ => qnan;
  dht_readHumidity := fun _ => qnan;
  dht_readTemperature := fun _ => qnan;
  ds_getAddress := fun _ => false;
  ds_getTempCByIndex := fun _ _ => 0xC2FE0000;
  serial_rx := fun n => if (n =? 0)%nat then request else []
|}.

(** Sensors found at start-up whose reads then all come back as NaN. *)
Definition glitchy : Devices := {|
  bmp_begin := true;
  bmp_readPressure := fun _ => qnan;
  bmp_readTemperature := fun _ => qnan;
  dht_readHumidity := fun _ => qnan;
  dht_readTemperature := fun _ => qnan;
  ds_getAddress := fun _ => true;
  ds_getTempCByIndex := fun _ _ => qnan;
  serial_rx := fun _ => []
|}.

(** The start-up state with a request, respectively line noise, pending. *)
Definition asked : State := set_serialIn [0x01; 0x02; 0xDF] initial_state.
Definition noise : State := set_serialIn [0x00; 0x03; 0x00] initial_state.

Definition asked_after : State :=
  match communicate asked with
  | Some st => st
  | None => asked
  end.

(** The unplugged station after start-up and one read of probe 0. *)
Definition unplugged_read : State :=
  match readDS unplugged 0 (setup unplugged initial_state) with
  | Some st => st
  | None => initial_state
  end.

(** ** Tactics *)

(** Turns a list [l] of known length (hypothesis [H]) into its elements. *)
Ltac list_of_length l H :=
  repeat (destruct l as [|? l]; [discriminate H|]; cbn [length] in H;
          apply eq_add_S in H);
  destruct l; [clear H | discriminate H].

(** ** Further notions *)

(** The register splits back into its two bytes. *)
Definition word_split_ok (hi lo : Z) : bool :=
  (word_of hi lo mod 256 =? lo) && (word_of hi lo / 256 =? hi).

(** Two different indices select different entries of [crcLoTable]. *)
Definition lo_table_inj_ok (i j : Z) : bool :=
  match array_get crcLoTable i, array_get crcLoTable j with
  | Some a, Some b => (i =? j) || negb (a =? b)
  | _, _ => false
  end.

Definition hi_table_ok (i : Z) : bool :=
  match array_get crcHiTable i with
  | Some h => is_byteb h
  | None => false
  end.

(** The buffers handed to [Serial.write] so far, oldest first. *)
Definition writes (tr : list Event) : list (list byte) :=
  flat_map (fun e => match e with SerialWrite buf => [buf] | _ => [] end) tr.

Definition is_write (e : Event) : bool :=
  match e with SerialWrite _ => true | _ => false end.

(** What a receiver accepts: 33 bytes, the fixed header, and a checksum of
    zero over the whole frame, checksum bytes included. *)
Definition valid_frame (buf : list byte) : Prop :=
  length buf = MODBUS_BUF_LEN /\
  firstn 3 buf = [0x00; 0x03; 0x1C] /\
  CRC16 buf MODBUS_BUF_LEN = Some 0.

(** A byte that [communicate] does not take for the trigger. *)
Definition no_trigger (b : byte) : Prop := to_byte b <> 0xDF.

(** A line on which the trigger byte never arrives. *)
Definition quiet (env : Devices) : Prop :=
  forall n, Forall no_trigger (serial_rx env n).


(** A state whose buffer still holds an earlier response: [asked_after] with
    a new request pending. *)
Definition asked_after_request : State := set_serialIn request asked_after.

(** The driver calls of [setup], in order. *)
Definition setup_trace (env : Devices) : list Event :=
  [BmpBegin] ++ (if bmp_begin env then [BmpSetSampling] else [])
  ++ [DhtBegin]
  ++ flat_map (fun i => [DsSetOneWire i; DsBegin i; DsGetAddress i]
                        ++ if ds_getAddress env i then [DsSetResolution i] else [])
              [0; 1; 2].

(** Nothing sent so far and no trigger byte pending. *)
Definition calm (st : State) : Prop :=
  Forall no_trigger (serialIn st) /\ writes (trace st) = [].


(** The bench station after start-up, the pressure read and the handler call
    that answers the request received during start-up. *)
Definition bench_answered : State :=
  match communicate (readBMP bench (setup bench initial_state)) with
  | Some st => st
  | None => initial_state
  end.

(** * Properties *)

(** ** Bytes *)

Lemma is_byteb_spec b : is_byteb b = true <-> is_byte b.
Proof. unfold is_byteb, is_byte. rewrite andb_true_iff. lia. Qed.

Lemma in_all_bytes b : is_byte b -> In b all_bytes.
Proof.
  intros Hb. unfold all_bytes. apply in_map_iff.
  exists (Z.to_nat b). split; [unfold is_byte in Hb; lia|].
  apply in_seq. unfold is_byte in Hb. lia.
Qed.

Lemma for_all_bytes2_spec p :
  for_all_bytes2 p = true ->
  forall a b, is_byte a -> is_byte b -> p a b = true.
Proof.
  unfold for_all_bytes2. intros H a b Ha Hb.
  rewrite forallb_forall in H.
  specialize (H a (in_all_bytes a Ha)).
  rewrite forallb_forall in H.
  exact (H b (in_all_bytes b Hb)).
Qed.

Lemma step_ok_all : for_all_bytes2 step_ok = true.
Proof. vm_compute. reflexivity. Qed.

Lemma xor_ok_all : for_all_bytes2 xor_ok = true.
Proof. vm_compute. reflexivity. Qed.

Lemma to_byte_is_byte x : is_byte (to_byte x).
Proof. unfold is_byte, to_byte. apply Z.mod_pos_bound. lia. Qed.

Lemma to_byte_id b : is_byte b -> to_byte b = b.
Proof. unfold is_byte, to_byte. intros H. apply Z.mod_small. exact H. Qed.

Lemma byte_testbit_high b n : is_byte b -> 8 <= n -> Z.testbit b n = false.
Proof.
  intros [H0 H1] Hn.
  destruct (Z.eq_dec b 0) as [->|Hnz]; [apply Z.testbit_0_l|].
  apply Z.bits_above_log2; [lia|].
  assert (Z.log2 b < 8) by (apply Z.log2_lt_pow2; simpl; lia).
  lia.
Qed.

(** Folding an input byte into the register only touches its low byte. *)
Lemma word_of_lxor hi lo b :
  is_byte lo -> is_byte b ->
  Z.lxor (word_of hi lo) b = word_of hi (Z.lxor lo b).
Proof.
  intros Hlo Hb. unfold word_of.
  apply Z.bits_inj'. intros n Hn.
  rewrite Z.lxor_spec, !Z.lor_spec, Z.lxor_spec, !Z.shiftl_spec by lia.
  destruct (Z_lt_le_dec n 8) as [Hlt|Hge].
  - rewrite (Z.testbit_neg_r hi (n - 8)) by lia. simpl. reflexivity.
  - rewrite (byte_testbit_high lo n), (byte_testbit_high b n) by assumption.
    rewrite orb_false_r. simpl. rewrite xorb_false_r, orb_false_r. reflexivity.
Qed.

(** ** The table-driven CRC16 computes the reference CRC-16 *)

Lemma CRC16_step hi lo b :
  is_byte hi -> is_byte lo -> is_byte b ->
  exists h l,
    array_get crcHiTable (to_uint (Z.lxor lo b)) = Some h /\
    array_get crcLoTable (to_uint (Z.lxor lo b)) = Some l /\
    is_byte l /\ is_byte (to_byte (Z.lxor hi h)) /\
    crc16_ref_byte (word_of hi lo) b = word_of l (to_byte (Z.lxor hi h)).
Proof.
  intros Hhi Hlo Hb.
  pose proof (for_all_bytes2_spec _ xor_ok_all lo b Hlo Hb) as Hx.
  unfold xor_ok in Hx. apply andb_true_iff in Hx as [Hx1 Hx2].
  apply is_byteb_spec in Hx1. apply Z.eqb_eq in Hx2. rewrite Hx2.
  pose proof (for_all_bytes2_spec _ step_ok_all hi (Z.lxor lo b) Hhi Hx1) as Hs.
  unfold step_ok in Hs.
  destruct (array_get crcHiTable (Z.lxor lo b)) as [h|]; [|discriminate].
  destruct (array_get crcLoTable (Z.lxor lo b)) as [l|]; [|discriminate].
  rewrite !andb_true_iff in Hs. destruct Hs as [[[Hl Hn] _] Heq].
  exists h, l. repeat split; try (apply is_byteb_spec; assumption).
  unfold crc16_ref_byte. rewrite word_of_lxor by assumption.
  apply Z.eqb_eq. exact Heq.
Qed.

Lemma CRC16_loop_reference len : forall buf hi lo,
  (len <= length buf)%nat -> Forall is_byte (firstn len buf) ->
  is_byte hi -> is_byte lo ->
  exists hi' lo',
    CRC16_loop buf len hi lo = Some (hi', lo') /\
    is_byte hi' /\ is_byte lo' /\
    word_of hi' lo' = fold_left crc16_ref_byte (firstn len buf) (word_of hi lo).
Proof.
  induction len as [|len IH]; intros buf hi lo Hlen Hall Hhi Hlo.
  - exists hi, lo. simpl. auto.
  - destruct buf as [|b buf]; [simpl in Hlen; lia|].
    simpl in Hlen, Hall. inversion Hall as [|? ? Hb Hrest]; subst.
    destruct (CRC16_step hi lo b Hhi Hlo Hb) as (h & l & Hh & Hl & Hlb & Hnb & Heq).
    cbn [CRC16_loop firstn fold_left]. rewrite Hh, Hl. cbn [bind].
    rewrite Heq. apply IH; auto. lia.
Qed.

Lemma word_of_uint hi lo : is_byte hi -> is_byte lo -> to_uint (word_of hi lo) = word_of hi lo.
Proof.
  intros Hhi Hlo.
  pose proof (for_all_bytes2_spec _ step_ok_all hi lo Hhi Hlo) as Hs.
  unfold step_ok in Hs.
  destruct (array_get crcHiTable lo); [|discriminate].
  destruct (array_get crcLoTable lo); [|discriminate].
  rewrite !andb_true_iff in Hs. destruct Hs as [[_ Hu] _].
  apply Z.eqb_eq. exact Hu.
Qed.

Lemma CRC16_prefix buf len :
  (len <= length buf)%nat -> Forall is_byte (firstn len buf) ->
  CRC16 buf len = Some (crc16_reference (firstn len buf)).
Proof.
  intros Hlen Hall. unfold CRC16, crc16_reference.
  destruct (CRC16_loop_reference len buf 0xFF 0xFF Hlen Hall) as (hi & lo & Hrun & Hhi & Hlo & Heq);
    try (unfold is_byte; lia).
  rewrite Hrun. cbn [bind]. fold (word_of hi lo).
  rewrite word_of_uint by assumption. rewrite Heq. reflexivity.
Qed.

(** C1: for every byte buffer [b], [CRC16 b (length b)] is the reference
    CRC-16 (reflected polynomial 0xA001, initial value 0xFFFF) of [b]; on the
    empty buffer it is 0xFFFF, on the one-byte buffer [0x01] it is 0x807E, and
    on the check vector "123456789" it is the published value 0x4B37. *)
Theorem CRC16_matches_reference :
  (forall b : list byte, Forall is_byte b ->
     CRC16 b (length b) = Some (crc16_reference b)) /\
  (CRC16 [] 0 = Some 0xFFFF /\ crc16_reference [] = 0xFFFF) /\
  (CRC16 [0x01] 1 = Some 0x807E /\ crc16_reference [0x01] = 0x807E) /\
  (CRC16 check_vector 9 = Some 0x4B37 /\ crc16_reference check_vector = 0x4B37).
Proof.
  split; [|repeat split; vm_compute; reflexivity].
  intros b Hb.
  rewrite (CRC16_prefix b (length b)); rewrite ?firstn_all; auto.
Qed.

Lemma CRC16_matches_reference_witness :
  Forall is_byte check_vector /\
  CRC16 check_vector (length check_vector) = Some (crc16_reference check_vector).
Proof.
  assert (H : Forall is_byte check_vector)
    by (unfold check_vector; repeat constructor; unfold is_byte; lia).
  split; [exact H|].
  exact (proj1 CRC16_matches_reference check_vector H).
Defined.

(** ** The sentinel *)

Lemma EMPTY_VAL_value :
  float_value EMPTY_VAL = Some (-100 # 1)%Q /\ isnan EMPTY_VAL = false.
Proof. split; vm_compute; reflexivity. Qed.

Lemma qnan_isnan : isnan qnan = true /\ float_value qnan = None.
Proof. split; vm_compute; reflexivity. Qed.

Lemma crc16_reference_uint buf :
  Forall is_byte buf -> to_uint (crc16_reference buf) = crc16_reference buf.
Proof.
  intros Hall. unfold crc16_reference.
  destruct (CRC16_loop_reference (length buf) buf 0xFF 0xFF) as (hi & lo & _ & Hhi & Hlo & Heq);
    try (unfold is_byte; lia); rewrite ?firstn_all; auto.
  rewrite firstn_all in Heq. change (word_of 0xFF 0xFF) with 0xFFFF in Heq.
  rewrite <- Heq. apply word_of_uint; assumption.
Qed.

(** ** The link protocol handler *)

Lemma drain_orb rx : forall acc,
  drain rx acc = acc || existsb (fun b => to_byte b =? 0xDF) rx.
Proof.
  induction rx as [|b rx IH]; intros acc; simpl.
  - now rewrite orb_false_r.
  - rewrite IH. destruct (to_byte b =? 0xDF), acc; reflexivity.
Qed.

Lemma drain_In rx : In 0xDF rx -> drain rx false = true.
Proof.
  intros Hin. rewrite drain_orb. simpl. apply existsb_exists.
  exists 0xDF. split; [exact Hin | reflexivity].
Qed.

Lemma drain_not_In rx :
  Forall is_byte rx -> ~ In 0xDF rx -> drain rx false = false.
Proof.
  intros Hall Hnin. rewrite drain_orb. simpl.
  apply not_true_is_false. intros Hex.
  apply existsb_exists in Hex as (b & Hb & Heq).
  rewrite Forall_forall in Hall.
  rewrite (to_byte_id b (Hall b Hb)) in Heq.
  apply Z.eqb_eq in Heq. subst b. exact (Hnin Hb).
Qed.

Lemma communicate_idle st :
  drain (serialIn st) false = false ->
  communicate st = Some (set_serialIn [] st).
Proof. intros H. unfold communicate. rewrite H. reflexivity. Qed.

Lemma mod_256_is_byte x : is_byte (x mod 256).
Proof. exact (to_byte_is_byte x). Qed.

Lemma frame_body_bytes st : Forall is_byte (frame_body st).
Proof.
  unfold frame_body. apply Forall_app. split.
  - repeat constructor; unfold is_byte; lia.
  - apply Forall_flat_map. apply Forall_forall. intros f _.
    unfold float_bytes. repeat constructor; apply mod_256_is_byte.
Qed.

(** A triggered handler leaves the response, written out, in the buffer and
    on the line. *)
Lemma communicate_armed st :
  wf st -> drain (serialIn st) false = true ->
  communicate st =
  Some (mkState (bmpFound st) (bmpP st) (bmpT st) (dhtH st) (dhtT st) (dsT st)
                (response_frame st) []
                (trace st ++ [SerialWrite (response_frame st)])).
Proof.
  destruct st as [found p t h ht ds buf rx tr].
  unfold wf. cbn [modbusBuf dsT serialIn].
  intros (Hlen & Hhdr & Hds) Htrig.
  destruct ds as [|d0 [|d1 [|d2 [|? ?]]]]; try discriminate Hds. clear Hds.
  unfold MODBUS_BUF_LEN in Hlen. list_of_length buf Hlen.
  cbn [firstn] in Hhdr. injection Hhdr as -> -> ->.
  pose proof (frame_body_bytes (mkState found p t h ht [d0; d1; d2] [] rx tr)) as Hbytes.
  pose proof (crc16_reference_uint _ Hbytes) as Huint.
  unfold communicate. cbn [serialIn]. rewrite Htrig.
  unfold response_frame in *. unfold frame_body, readings in *.
  cbn [set_serialIn set_modbusBuf bmpFound bmpP bmpT dhtH dhtT dsT modbusBuf
       serialIn trace memcpy bind firstn skipn app length Nat.ltb Nat.leb orb
       float_bytes floats_bytes flat_map Nat.add Nat.sub MODBUS_BUF_LEN] in *.
  rewrite CRC16_prefix; [|cbn [length]; lia|exact Hbytes].
  cbn [bind firstn]. rewrite !Huint.
  reflexivity.
Qed.

(** ** Frames, written out *)

Lemma response_frame_length st :
  length (dsT st) = 3%nat -> length (response_frame st) = MODBUS_BUF_LEN.
Proof.
  destruct st as [found p t h ht ds buf rx tr]. cbn [dsT]. intros Hds.
  destruct ds as [|d0 [|d1 [|d2 [|? ?]]]]; try discriminate Hds.
  reflexivity.
Qed.

Lemma response_frame_header st :
  firstn 3 (response_frame st) = [0x00; 0x03; 0x1C].
Proof. reflexivity. Qed.

Lemma response_frame_body st :
  length (dsT st) = 3%nat -> firstn 31 (response_frame st) = frame_body st.
Proof.
  intros Hds. unfold response_frame.
  assert (Hlen : length (frame_body st) = 31%nat).
  { destruct st as [found p t h ht ds buf rx tr]. cbn [dsT] in Hds.
    destruct ds as [|d0 [|d1 [|d2 [|? ?]]]]; try discriminate Hds.
    reflexivity. }
  rewrite <- Hlen at 1.
  rewrite firstn_app, firstn_all, Nat.sub_diag. cbn [firstn].
  apply app_nil_r.
Qed.

Lemma float_bytes_decode f :
  float_of_bytes (float_bytes f) = Some (f mod 2 ^ 32).
Proof.
  unfold float_bytes, float_of_bytes. f_equal.
  change (2 ^ 32) with 4294967296. Z.div_mod_to_equations. lia.
Qed.

Lemma response_frame_field st c :
  length (dsT st) = 3%nat ->
  exists f, reading st c = Some f /\
            frame_field (response_frame st) (channel_offset c) = float_bytes f.
Proof.
  destruct st as [found p t h ht ds buf rx tr]. cbn [dsT]. intros Hds.
  destruct ds as [|d0 [|d1 [|d2 [|? ?]]]]; try discriminate Hds.
  destruct c; eexists; split; reflexivity.
Qed.

(** ** What the handler does, case by case *)

Lemma communicate_spec st :
  wf st ->
  exists st',
    communicate st = Some st' /\
    bmpFound st' = bmpFound st /\ readings st' = readings st /\
    serialIn st' = [] /\ wf st' /\
    trace st' = trace st ++ response st.
Proof.
  intros Hwf. unfold response.
  destruct (drain (serialIn st) false) eqn:Htrig.
  - rewrite (communicate_armed st Hwf Htrig). eexists. split; [reflexivity|].
    destruct Hwf as (Hlen & Hhdr & Hds).
    cbn [bmpFound readings bmpP bmpT dhtH dhtT dsT serialIn trace].
    repeat split; try reflexivity; cbn [modbusBuf dsT]; try assumption.
    apply response_frame_length. exact Hds.
  - rewrite (communicate_idle st Htrig). eexists. split; [reflexivity|].
    destruct st; cbn. rewrite app_nil_r. repeat split; apply Hwf.
Qed.

Lemma emits_response st :
  wf st -> In 0xDF (serialIn st) -> emits st (response_frame st).
Proof.
  intros Hwf Hin.
  destruct (communicate_spec st Hwf) as (st' & Hc & _ & _ & _ & _ & Htr).
  unfold response in Htr. rewrite (drain_In _ Hin) in Htr.
  exists st'. split; assumption.
Qed.

(** ** Invariant *)

Lemma wf_same st st' :
  modbusBuf st' = modbusBuf st -> dsT st' = dsT st -> wf st -> wf st'.
Proof. unfold wf. intros -> ->. exact (fun H => H). Qed.

Lemma wf_initial : wf initial_state.
Proof. repeat split. Qed.

Section Invariants.

Variable env : Devices.

(** The sensor steps touch neither the frame buffer nor, except for
    [readDS], the probe array. *)
Lemma initDS_body_globals st i :
  bmpFound (initDS_body env st i) = bmpFound st /\
  readings (initDS_body env st i) = readings st /\
  modbusBuf (initDS_body env st i) = modbusBuf st.
Proof. unfold initDS_body. destruct (ds_getAddress env i); repeat split. Qed.

Lemma initDS_globals st :
  bmpFound (initDS env st) = bmpFound st /\
  readings (initDS env st) = readings st /\
  modbusBuf (initDS env st) = modbusBuf st.
Proof.
  unfold initDS. generalize (map Z.of_nat (seq 0 (Z.to_nat ONE_WIRE_CNT))).
  intros l. revert st. induction l as [|i l IH]; intros st; cbn [fold_left].
  - repeat split.
  - destruct (IH (initDS_body env st i)) as (H1 & H2 & H3).
    destruct (initDS_body_globals st i) as (G1 & G2 & G3).
    rewrite H1, H2, H3. auto.
Qed.

Lemma readings_dsT st st' : readings st' = readings st -> dsT st' = dsT st.
Proof. unfold readings. cbn [app]. intros H. injection H. auto. Qed.

Lemma setup_globals :
  bmpFound (setup env initial_state) = bmp_begin env /\
  readings (setup env initial_state) = readings initial_state /\
  modbusBuf (setup env initial_state) = modbusBuf initial_state.
Proof.
  unfold setup.
  destruct (initDS_globals (initDHT env (initBMP env initial_state))) as (H1 & H2 & H3).
  rewrite H1, H2, H3. unfold initDHT, initBMP.
  destruct (bmp_begin env); repeat split.
Qed.

Lemma wf_setup : wf (setup env initial_state).
Proof.
  destruct setup_globals as (_ & H2 & H3).
  apply (wf_same initial_state); [exact H3 | exact (readings_dsT _ _ H2) | exact wf_initial].
Qed.

Lemma wf_readBMP st : wf st -> wf (readBMP env st).
Proof.
  apply wf_same; unfold readBMP; destruct (bmpFound st); reflexivity.
Qed.

Lemma wf_readDHT st : wf st -> wf (readDHT env st).
Proof.
  apply wf_same; unfold readDHT; cbn;
    match goal with |- context [if ?c then _ else _] => destruct c end; reflexivity.
Qed.

Lemma array_set_length {A} (a a' : list A) i v :
  array_set a i v = Some a' -> length a' = length a.
Proof.
  unfold array_set.
  destruct ((i <? 0) || (Z.of_nat (length a) <=? i)) eqn:Hb; [discriminate|].
  intros [= <-]. apply orb_false_iff in Hb as [H0 H1].
  rewrite length_app, length_firstn, length_cons, length_skipn. lia.
Qed.

Lemma array_set_total {A} (a : list A) i v :
  0 <= i < Z.of_nat (length a) -> exists a', array_set a i v = Some a'.
Proof.
  intros Hi. unfold array_set.
  replace ((i <? 0) || (Z.of_nat (length a) <=? i)) with false; [eauto|].
  symmetry. apply orb_false_iff. lia.
Qed.

(** [readDS] always goes to the bus: it asks for a conversion, fetches the
    answer and stores it as it is. *)
Lemma readDS_spec index st :
  0 <= index < ONE_WIRE_CNT -> length (dsT st) = 3%nat ->
  exists st',
    readDS env index st = Some st' /\
    array_get (dsT st') index
      = Some (ds_getTempCByIndex env index (S (length (trace st)))) /\
    length (dsT st') = 3%nat /\
    modbusBuf st' = modbusBuf st /\ bmpFound st' = bmpFound st /\
    bmpP st' = bmpP st /\ bmpT st' = bmpT st /\
    dhtH st' = dhtH st /\ dhtT st' = dhtT st /\
    trace st' = trace st ++ [DsRequestTemperatures index; DsGetTempCByIndex index].
Proof.
  unfold ONE_WIRE_CNT. intros Hi Hds.
  destruct st as [found p t h ht ds buf rx tr]. cbn [dsT] in Hds.
  destruct ds as [|d0 [|d1 [|d2 [|? ?]]]]; try discriminate Hds.
  unfold readDS, ONE_WIRE_CNT.
  replace ((index <? 0) || (3 <=? index)) with false
    by (symmetry; apply orb_false_iff; lia).
  cbn [driver_read driver_call trace dsT length].
  assert (Hcase : index = 0 \/ index = 1 \/ index = 2) by lia.
  rewrite length_app, Nat.add_comm. cbn [length Nat.add].
  destruct Hcase as [-> | [-> | ->]]; cbn; eexists;
    (split; [reflexivity|]); cbn; rewrite <- app_assoc; repeat split.
Qed.

Lemma wf_readDS i st st' : wf st -> readDS env i st = Some st' -> wf st'.
Proof.
  intros (Hlen & Hhdr & Hds) Hr.
  assert (Hi : 0 <= i < ONE_WIRE_CNT).
  { unfold readDS in Hr.
    destruct ((i <? 0) || (ONE_WIRE_CNT <=? i)) eqn:Hb; [discriminate|].
    apply orb_false_iff in Hb. lia. }
  destruct (readDS_spec i st Hi Hds) as (s & Hs & _ & Hl & Hm & _).
  rewrite Hs in Hr. injection Hr as <-.
  unfold wf. rewrite Hm. auto.
Qed.

Lemma wf_communicate st st' : wf st -> communicate st = Some st' -> wf st'.
Proof.
  intros Hwf Hc.
  destruct (communicate_spec st Hwf) as (s & Hs & _ & _ & _ & Hw & _).
  rewrite Hs in Hc. injection Hc as <-. exact Hw.
Qed.

Lemma reachable_wf st : reachable env st -> wf st.
Proof.
  induction 1 as [|st _ IH|st _ IH|i st st' _ IH Hr|st st' _ IH Hc].
  - exact wf_setup.
  - exact (wf_readBMP st IH).
  - exact (wf_readDHT st IH).
  - exact (wf_readDS i st st' IH Hr).
  - exact (wf_communicate st st' IH Hc).
Qed.

End Invariants.

(** ** The acquisition loop *)

Section Loop.

Variable env : Devices.

Lemma communicate_answered st :
  wf st -> exists st', communicate st = Some st' /\ answered (st, st') /\ wf st'
                       /\ bmpFound st' = bmpFound st.
Proof.
  intros Hwf.
  destruct (communicate_spec st Hwf) as (st' & Hc & Hf & Hr & _ & Hw & Ht).
  exists st'. unfold answered. cbn [fst snd]. auto.
Qed.

Lemma readDS_total i st :
  0 <= i < ONE_WIRE_CNT -> wf st ->
  exists st', readDS env i st = Some st' /\ wf st'.
Proof.
  intros Hi Hwf.
  destruct (readDS_spec env i st Hi (proj2 (proj2 Hwf))) as (st' & Hr & _).
  exists st'. split; [exact Hr|]. exact (wf_readDS env i st st' Hwf Hr).
Qed.

Lemma loop_spec st :
  wf st ->
  exists s1 s2 s3 s4 s5 s6 s7 s8 s9 s10,
    readBMP env st = s1 /\ communicate s1 = Some s2 /\
    readDHT env s2 = s3 /\ communicate s3 = Some s4 /\
    readDS env 0 s4 = Some s5 /\ communicate s5 = Some s6 /\
    readDS env 1 s6 = Some s7 /\ communicate s7 = Some s8 /\
    readDS env 2 s8 = Some s9 /\ communicate s9 = Some s10 /\
    loop env st = Some s10 /\
    Forall answered [(s1, s2); (s3, s4); (s5, s6); (s7, s8); (s9, s10)] /\
    wf s10.
Proof.
  intros Hwf. unfold loop, ONE_WIRE_CNT in *.
  pose proof (wf_readBMP env st Hwf) as W1.
  destruct (communicate_answered _ W1) as (s2 & C2 & A2 & W2 & _).
  pose proof (wf_readDHT env s2 W2) as W3.
  destruct (communicate_answered _ W3) as (s4 & C4 & A4 & W4 & _).
  destruct (readDS_total 0 s4 ltac:(unfold ONE_WIRE_CNT; lia) W4) as (s5 & R5 & W5).
  destruct (communicate_answered _ W5) as (s6 & C6 & A6 & W6 & _).
  destruct (readDS_total 1 s6 ltac:(unfold ONE_WIRE_CNT; lia) W6) as (s7 & R7 & W7).
  destruct (communicate_answered _ W7) as (s8 & C8 & A8 & W8 & _).
  destruct (readDS_total 2 s8 ltac:(unfold ONE_WIRE_CNT; lia) W8) as (s9 & R9 & W9).
  destruct (communicate_answered _ W9) as (s10 & C10 & A10 & W10 & _).
  exists (readBMP env st), s2, (readDHT env s2), s4, s5, s6, s7, s8, s9, s10.
  rewrite C2. cbn [bind]. rewrite C4. cbn [bind]. rewrite R5. cbn [bind].
  rewrite C6. cbn [bind]. rewrite R7. cbn [bind]. rewrite C8. cbn [bind].
  rewrite R9. cbn [bind]. rewrite C10.
  repeat (split; [first [reflexivity | assumption]|]).
  split; [|exact W10].
  repeat (apply Forall_cons; [assumption|]). apply Forall_nil.
Qed.

Lemma loop_reachable st st' :
  reachable env st -> loop env st = Some st' -> reachable env st'.
Proof.
  intros Hre Hl.
  destruct (loop_spec st (reachable_wf env st Hre))
    as (s1 & s2 & s3 & s4 & s5 & s6 & s7 & s8 & s9 & s10
        & E1 & C2 & E3 & C4 & R5 & C6 & R7 & C8 & R9 & C10 & Hloop & _).
  rewrite Hloop in Hl. injection Hl as <-.
  eapply reach_communicate; [|exact C10].
  eapply reach_readDS; [|exact R9].
  eapply reach_communicate; [|exact C8].
  eapply reach_readDS; [|exact R7].
  eapply reach_communicate; [|exact C6].
  eapply reach_readDS; [|exact R5].
  eapply reach_communicate; [|exact C4].
  rewrite <- E3. apply reach_readDHT.
  eapply reach_communicate; [|exact C2].
  rewrite <- E1. apply reach_readBMP. exact Hre.
Qed.

Lemma run_reachable n : forall st,
  reachable env st ->
  exists st', run env n st = Some st' /\ reachable env st'.
Proof.
  induction n as [|n IH]; intros st Hre; cbn [run].
  - eauto.
  - destruct (loop_spec st (reachable_wf env st Hre))
      as (s1 & s2 & s3 & s4 & s5 & s6 & s7 & s8 & s9 & s10 & H).
    assert (Hl : loop env st = Some s10) by (decompose [and] H; assumption).
    rewrite Hl. cbn [bind]. apply IH. exact (loop_reachable st s10 Hre Hl).
Qed.

(** Without a pressure sensor found at start-up the two pressure channels
    never leave their initial value. *)
Lemma bmp_absent_invariant st :
  bmp_begin env = false -> reachable env st ->
  bmpFound st = false /\ bmpP st = EMPTY_VAL /\ bmpT st = EMPTY_VAL.
Proof.
  intros Hb. induction 1 as [|st _ IH|st _ IH|i st st' Hre IH Hr|st st' Hre IH Hc].
  - destruct (setup_globals env) as (H1 & H2 & _).
    rewrite H1. unfold readings in H2. cbn [app] in H2.
    injection H2 as -> -> _ _ _. auto.
  - destruct IH as (F & P & T). unfold readBMP. rewrite F. auto.
  - destruct IH as (F & P & T). unfold readDHT. cbn.
    match goal with |- context [if ?c then _ else _] => destruct c end; auto.
  - assert (Hi : 0 <= i < ONE_WIRE_CNT).
    { unfold readDS in Hr.
      destruct ((i <? 0) || (ONE_WIRE_CNT <=? i)) eqn:E; [discriminate|].
      apply orb_false_iff in E. lia. }
    destruct (readDS_spec env i st Hi (proj2 (proj2 (reachable_wf env st Hre))))
      as (s & Hs & _ & _ & _ & F' & P' & T' & _).
    rewrite Hs in Hr. injection Hr as <-. rewrite F', P', T'. exact IH.
  - destruct (communicate_spec st (reachable_wf env st Hre))
      as (s & Hs & F' & R' & _).
    rewrite Hs in Hc. injection Hc as <-. rewrite F'.
    unfold readings in R'. cbn [app] in R'. injection R' as -> -> _ _ _. exact IH.
Qed.

End Loop.

(** * Properties of the specification *)

(** C4: when the handler drains an input that holds the byte 0xDF anywhere,
    exactly one frame of 33 bytes is written; when the drained input holds no
    0xDF, nothing is written. *)
Theorem communicate_trigger st :
  wf st -> Forall is_byte (serialIn st) ->
  (In 0xDF (serialIn st) ->
   exists frame, emits st frame /\ length frame = 33%nat) /\
  (~ In 0xDF (serialIn st) ->
   exists st', communicate st = Some st' /\ trace st' = trace st).
Proof.
  intros Hwf Hbytes. split.
  - intros Hin. exists (response_frame st). split.
    + exact (emits_response st Hwf Hin).
    + exact (response_frame_length st (proj2 (proj2 Hwf))).
  - intros Hnin.
    destruct (communicate_spec st Hwf) as (st' & Hc & _ & _ & _ & _ & Htr).
    unfold response in Htr. rewrite (drain_not_In _ Hbytes Hnin) in Htr.
    rewrite app_nil_r in Htr. eauto.
Qed.

Lemma communicate_trigger_witness :
  (exists frame, emits asked frame /\ length frame = 33%nat) /\
  (exists st', communicate noise = Some st' /\ trace st' = trace noise).
Proof.
  split.
  - apply (communicate_trigger asked).
    + repeat split.
    + repeat constructor; unfold is_byte; lia.
    + simpl. tauto.
  - apply (communicate_trigger noise).
    + repeat split.
    + repeat constructor; unfold is_byte; lia.
    + simpl. intros [H | [H | [H | []]]]; discriminate H.
Defined.

(** C5: in every state the sketch reaches, the frame it emits carries at
    offsets 31 and 32 the low and then the high byte of [CRC16] taken over
    the first 31 bytes of that very frame, and its byte at offset 2 is 28. *)
Theorem frame_checksum env st :
  reachable env st -> In 0xDF (serialIn st) ->
  exists frame crc,
    emits st frame /\
    CRC16 frame 31 = Some crc /\
    crc = crc16_reference (firstn 31 frame) /\
    array_get frame 31 = Some (crc mod 256) /\
    array_get frame 32 = Some (crc / 256) /\
    array_get frame 2 = Some 28.
Proof.
  intros Hre Hin. pose proof (reachable_wf env st Hre) as Hwf.
  pose proof (proj2 (proj2 Hwf)) as Hds.
  exists (response_frame st), (crc16_reference (frame_body st)).
  split; [exact (emits_response st Hwf Hin)|].
  pose proof (response_frame_body st Hds) as Hbody.
  pose proof (frame_body_bytes st) as Hbytes.
  split.
  { rewrite CRC16_prefix; rewrite ?Hbody; auto.
    rewrite (response_frame_length st Hds). unfold MODBUS_BUF_LEN. lia. }
  split; [now rewrite Hbody|].
  pose proof (crc16_reference_uint _ Hbytes) as Huint.
  assert (Hhi : (crc16_reference (frame_body st) / 256) mod 256
                = crc16_reference (frame_body st) / 256).
  { unfold to_uint in Huint. Z.div_mod_to_equations. lia. }
  rewrite <- Hhi. clear Hhi Huint Hbody Hbytes.
  unfold response_frame, ushort_bytes.
  generalize (crc16_reference (frame_body st)). intros crc.
  destruct st as [found p t h ht ds buf rx tr]. cbn [dsT] in Hds.
  destruct ds as [|d0 [|d1 [|d2 [|? ?]]]]; try discriminate Hds.
  repeat split.
Qed.

Lemma frame_checksum_witness :
  exists frame crc,
    emits (setup bench initial_state) frame /\
    CRC16 frame 31 = Some crc /\
    crc = crc16_reference (firstn 31 frame) /\
    array_get frame 31 = Some (crc mod 256) /\
    array_get frame 32 = Some (crc / 256) /\
    array_get frame 2 = Some 28.
Proof.
  apply (frame_checksum bench (setup bench initial_state)).
  - apply reach_setup.
  - vm_compute. tauto.
Defined.

(** C6: in every state the sketch reaches, the frame it emits is 33 bytes
    long and begins with 0x00, 0x03, 0x1C, whatever the readings are. *)
Theorem frame_header env st :
  reachable env st -> In 0xDF (serialIn st) ->
  exists frame,
    emits st frame /\ length frame = 33%nat /\
    firstn 3 frame = [0x00; 0x03; 0x1C].
Proof.
  intros Hre Hin. pose proof (reachable_wf env st Hre) as Hwf.
  exists (response_frame st). split; [exact (emits_response st Hwf Hin)|].
  split; [exact (response_frame_length st (proj2 (proj2 Hwf)))|].
  apply response_frame_header.
Qed.

Lemma frame_header_witness :
  exists frame,
    emits (setup unplugged initial_state) frame /\ length frame = 33%nat /\
    firstn 3 frame = [0x00; 0x03; 0x1C].
Proof.
  apply (frame_header unplugged (setup unplugged initial_state)).
  - apply reach_setup.
  - vm_compute. tauto.
Defined.

(** C7: the emitted frame holds the seven readings as 4-byte fields, least
    significant byte first, at offsets 3, 7, 11, 15, 19, 23, 27 in the order
    Pressure, PressureTemp, Humidity, HumidityTemp, Probe0Temp, Probe1Temp,
    Probe2Temp; decoding a field gives the reading back, and when all seven
    readings are the sentinel the seven decoded values are -100. *)
Theorem frame_payload st :
  wf st -> In 0xDF (serialIn st) ->
  exists frame,
    emits st frame /\
    map channel_offset channels = [3; 7; 11; 15; 19; 23; 27]%nat /\
    (forall c, exists f,
        reading st c = Some f /\
        frame_field frame (channel_offset c) = float_bytes f /\
        decode_field frame (channel_offset c) = Some (f mod 2 ^ 32)) /\
    (readings st = repeat EMPTY_VAL 7 ->
     map (fun c => decode_value frame (channel_offset c)) channels
     = repeat (Some (-100 # 1)%Q) 7).
Proof.
  intros Hwf Hin. pose proof (proj2 (proj2 Hwf)) as Hds.
  exists (response_frame st). split; [exact (emits_response st Hwf Hin)|].
  split; [reflexivity|].
  assert (Hfield : forall c, exists f,
             reading st c = Some f /\
             frame_field (response_frame st) (channel_offset c) = float_bytes f /\
             decode_field (response_frame st) (channel_offset c) = Some (f mod 2 ^ 32)).
  { intros c. destruct (response_frame_field st c Hds) as (f & Hr & Hf).
    exists f. repeat split; try assumption.
    unfold decode_field. rewrite Hf. apply float_bytes_decode. }
  split; [exact Hfield|].
  intros Hall.
  assert (Hc : forall c, decode_value (response_frame st) (channel_offset c)
                         = Some (-100 # 1)%Q).
  { intros c. destruct (Hfield c) as (f & Hr & _ & Hd).
    assert (f = EMPTY_VAL) as ->.
    { destruct st as [found p t h ht ds buf rx tr].
      unfold readings in Hall. cbn in Hall.
      injection Hall as -> -> -> -> ->.
      destruct c; cbn in Hr; injection Hr as <-; reflexivity. }
    unfold decode_value. rewrite Hd. reflexivity. }
  cbn [map channels]. rewrite !Hc. reflexivity.
Qed.

Lemma frame_payload_witness :
  exists frame,
    emits asked frame /\
    map (fun c => decode_value frame (channel_offset c)) channels
    = repeat (Some (-100 # 1)%Q) 7.
Proof.
  destruct (frame_payload asked) as (frame & He & _ & _ & Hall).
  - repeat split.
  - simpl. tauto.
  - exists frame. split; [exact He|]. apply Hall. reflexivity.
Defined.

(** C8: one pass through [loop] is the ten steps read pressure, handler,
    read humidity, handler, read probe 0, handler, read probe 1, handler,
    read probe 2, handler, each of which completes; every handler call
    leaves the readings as the sensor step before it left them and writes
    at most one frame, the encoding of those readings. *)
Theorem loop_steps env st :
  wf st ->
  exists s1 s2 s3 s4 s5 s6 s7 s8 s9 s10,
    readBMP env st = s1 /\ communicate s1 = Some s2 /\
    readDHT env s2 = s3 /\ communicate s3 = Some s4 /\
    readDS env 0 s4 = Some s5 /\ communicate s5 = Some s6 /\
    readDS env 1 s6 = Some s7 /\ communicate s7 = Some s8 /\
    readDS env 2 s8 = Some s9 /\ communicate s9 = Some s10 /\
    loop env st = Some s10 /\
    Forall answered [(s1, s2); (s3, s4); (s5, s6); (s7, s8); (s9, s10)].
Proof.
  intros Hwf.
  destruct (loop_spec env st Hwf)
    as (s1 & s2 & s3 & s4 & s5 & s6 & s7 & s8 & s9 & s10
        & E1 & C2 & E3 & C4 & R5 & C6 & R7 & C8 & R9 & C10 & Hloop & Hans & _).
  exists s1, s2, s3, s4, s5, s6, s7, s8, s9, s10.
  repeat (split; [assumption|]). exact Hans.
Qed.

Lemma loop_steps_witness :
  exists st', loop bench (setup bench initial_state) = Some st'.
Proof.
  destruct (loop_steps bench (setup bench initial_state))
    as (s1 & s2 & s3 & s4 & s5 & s6 & s7 & s8 & s9 & s10 & H).
  - vm_compute. repeat split.
  - exists s10. decompose [and] H. assumption.
Defined.

(** C9: a call of the handler returns, and leaves the seven readings as
    they were, whether or not it emits a frame. *)
Theorem communicate_keeps_readings st :
  (wf st -> exists st', communicate st = Some st') /\
  (forall st',
     communicate st = Some st' ->
     bmpP st' = bmpP st /\ bmpT st' = bmpT st /\
     dhtH st' = dhtH st /\ dhtT st' = dhtT st /\ dsT st' = dsT st).
Proof.
  split.
  - intros Hwf. destruct (communicate_spec st Hwf) as (st' & Hc & _). eauto.
  - intros st'. unfold communicate.
    destruct (drain (serialIn st) false).
    + intros H.
      repeat match type of H with
             | bind ?c _ = Some _ =>
                 destruct c; cbn [bind] in H; [|discriminate H]
             end.
      unfold Serial_write in H.
      match type of H with
      | (if ?c then _ else _) = _ => destruct c; [discriminate H|]
      end.
      injection H as <-. repeat split.
    + intros [= <-]. repeat split.
Qed.

Lemma communicate_keeps_readings_witness :
  (exists st', communicate asked = Some st') /\
  communicate asked = Some asked_after /\
  trace asked_after <> trace asked /\
  bmpP asked_after = bmpP asked /\ bmpT asked_after = bmpT asked /\
  dhtH asked_after = dhtH asked /\ dhtT asked_after = dhtT asked /\
  dsT asked_after = dsT asked.
Proof.
  assert (H : communicate asked = Some asked_after) by (vm_compute; reflexivity).
  split; [apply (proj1 (communicate_keeps_readings asked)); repeat split|].
  split; [exact H|]. split; [vm_compute; discriminate|].
  exact (proj2 (communicate_keeps_readings asked) asked_after H).
Defined.

(** C10: while [bmpFound] is false a call of [readBMP] changes nothing and
    makes no driver call; and when the pressure sensor is not found at
    start-up, [bmpFound] stays false and both pressure channels hold the
    sentinel in every state the sketch reaches, after any number of passes
    through [loop]. *)
Theorem readBMP_absent env :
  (forall st, bmpFound st = false -> readBMP env st = st) /\
  (bmp_begin env = false ->
   (forall st, reachable env st ->
      bmpFound st = false /\ bmpP st = EMPTY_VAL /\ bmpT st = EMPTY_VAL) /\
   (forall n, exists st,
      run env n (setup env initial_state) = Some st /\
      bmpFound st = false /\ bmpP st = EMPTY_VAL /\ bmpT st = EMPTY_VAL)).
Proof.
  split.
  - intros st Hf. unfold readBMP. rewrite Hf. reflexivity.
  - intros Hb. split.
    + intros st Hre. exact (bmp_absent_invariant env st Hb Hre).
    + intros n.
      destruct (run_reachable env n _ (reach_setup env)) as (st & Hrun & Hre).
      exists st. split; [exact Hrun|].
      exact (bmp_absent_invariant env st Hb Hre).
Qed.

Lemma readBMP_absent_witness :
  readBMP unplugged initial_state = initial_state /\
  exists st,
    run unplugged 2 (setup unplugged initial_state) = Some st /\
    bmpFound st = false /\ bmpP st = EMPTY_VAL /\ bmpT st = EMPTY_VAL.
Proof.
  split.
  - apply (proj1 (readBMP_absent unplugged) initial_state). reflexivity.
  - apply (proj2 (proj2 (readBMP_absent unplugged) eq_refl) 2%nat).
Defined.

(** C2 as stated fails for the probes and for a found pressure sensor.  A
    probe that was not detected at start-up and whose read comes back as the
    driver's -127.0 leaves -127.0 in its channel, and the frame emitted next
    carries -127 there; a probe or a found pressure sensor whose read comes
    back as NaN leaves NaN in its channels. *)
Lemma failed_read_not_sentinel :
  (ds_getAddress unplugged 0 = false /\
   readDS unplugged 0 (setup unplugged initial_state) = Some unplugged_read /\
   reading unplugged_read Probe0Temp = Some 0xC2FE0000 /\
   0xC2FE0000 <> EMPTY_VAL /\
   exists frame,
     emits unplugged_read frame /\
     decode_value frame (channel_offset Probe0Temp) = Some (-127 # 1)%Q) /\
  (isnan (ds_getTempCByIndex glitchy 0 1) = true /\
   exists st', readDS glitchy 0 initial_state = Some st' /\
               reading st' Probe0Temp = Some qnan) /\
  (isnan (bmp_readPressure glitchy 0) = true /\
   bmpP (readBMP glitchy (setup glitchy initial_state)) = qnan /\
   bmpT (readBMP glitchy (setup glitchy initial_state)) = qnan) /\
  qnan <> EMPTY_VAL /\ float_value qnan = None.
Proof.
  split; [|split; [|split; [|split]]].
  - split; [reflexivity|]. split; [vm_compute; reflexivity|].
    split; [vm_compute; reflexivity|]. split; [discriminate|].
    exists (response_frame unplugged_read). split.
    + apply emits_response; [vm_compute; repeat split | vm_compute; tauto].
    + vm_compute. reflexivity.
  - split; [reflexivity|]. eexists. split; vm_compute; reflexivity.
  - repeat split; vm_compute; reflexivity.
  - discriminate.
  - reflexivity.
Qed.

(** C2, amended: a humidity read in which either value is NaN leaves the
    sentinel in both humidity channels; with no pressure sensor found at
    start-up both pressure channels hold the sentinel after every read; and
    a channel that holds the sentinel is decoded from an emitted frame as
    exactly -100. *)
Theorem sentinel_on_failed_read env :
  (forall st,
     isnan (dht_readHumidity env (length (trace st))) = true \/
     isnan (dht_readTemperature env (S (length (trace st)))) = true ->
     dhtH (readDHT env st) = EMPTY_VAL /\ dhtT (readDHT env st) = EMPTY_VAL) /\
  (bmp_begin env = false ->
   forall st, reachable env st ->
     bmpP (readBMP env st) = EMPTY_VAL /\ bmpT (readBMP env st) = EMPTY_VAL) /\
  (forall st c,
     wf st -> In 0xDF (serialIn st) -> reading st c = Some EMPTY_VAL ->
     exists frame,
       emits st frame /\
       decode_value frame (channel_offset c) = Some (-100 # 1)%Q).
Proof.
  split; [|split].
  - intros st Hnan. unfold readDHT.
    cbn [driver_read driver_call set_dhtH set_dhtT dhtH dhtT trace].
    rewrite length_app, Nat.add_comm. cbn [length Nat.add].
    replace (isnan (dht_readHumidity env (length (trace st)))
             || isnan (dht_readTemperature env (S (length (trace st)))))
      with true by (symmetry; apply orb_true_iff; exact Hnan).
    split; reflexivity.
  - intros Hb st Hre.
    destruct (bmp_absent_invariant env st Hb Hre) as (F & P & T).
    unfold readBMP. rewrite F. auto.
  - intros st c Hwf Hin Hr.
    exists (response_frame st). split; [exact (emits_response st Hwf Hin)|].
    destruct (response_frame_field st c (proj2 (proj2 Hwf))) as (f & Hr' & Hf).
    rewrite Hr in Hr'. injection Hr' as <-.
    unfold decode_value, decode_field. rewrite Hf. reflexivity.
Qed.

Lemma sentinel_on_failed_read_witness :
  (dhtH (readDHT glitchy initial_state) = EMPTY_VAL /\
   dhtT (readDHT glitchy initial_state) = EMPTY_VAL) /\
  (bmpP (readBMP unplugged (setup unplugged initial_state)) = EMPTY_VAL /\
   bmpT (readBMP unplugged (setup unplugged initial_state)) = EMPTY_VAL) /\
  (exists frame,
     emits asked frame /\
     decode_value frame (channel_offset Probe1Temp) = Some (-100 # 1)%Q).
Proof.
  split; [|split].
  - apply (proj1 (sentinel_on_failed_read glitchy) initial_state).
    left. reflexivity.
  - apply (proj1 (proj2 (sentinel_on_failed_read unplugged)) eq_refl).
    apply reach_setup.
  - apply (proj2 (proj2 (sentinel_on_failed_read unplugged)) asked Probe1Temp).
    + repeat split.
    + simpl. tauto.
    + reflexivity.
Defined.

(** C3 as stated fails: with nothing detected at start-up, a probe read
    still makes its two driver calls, while the pressure read makes none. *)
Lemma probe_read_not_skipped :
  bmp_begin unplugged = false /\ ds_getAddress unplugged 0 = false /\
  (exists st',
     readDS unplugged 0 (setup unplugged initial_state) = Some st' /\
     trace st' = trace (setup unplugged initial_state)
                 ++ [DsRequestTemperatures 0; DsGetTempCByIndex 0]) /\
  trace (readBMP unplugged (setup unplugged initial_state))
  = trace (setup unplugged initial_state).
Proof.
  split; [reflexivity|]. split; [reflexivity|].
  split; [eexists; split; vm_compute; reflexivity|].
  vm_compute. reflexivity.
Qed.

(** C3, amended: the guard against an absent device is on the pressure
    sensor only.  [bmpFound] is what [bmp.begin] answered at start-up; while
    it is false [readBMP] makes no driver call, and while it is true it makes
    its two reads.  [initDS] keeps no record of what it detected, and the
    humidity read and every probe read make their driver calls on every
    invocation. *)
Theorem absent_device_guard env st :
  bmpFound (setup env initial_state) = bmp_begin env /\
  (bmpFound st = false -> trace (readBMP env st) = trace st) /\
  (bmpFound st = true ->
   trace (readBMP env st) = trace st ++ [BmpReadPressure; BmpReadTemperature]) /\
  (bmpFound (initDS env st) = bmpFound st /\
   readings (initDS env st) = readings st /\
   modbusBuf (initDS env st) = modbusBuf st) /\
  trace (readDHT env st) = trace st ++ [DhtReadHumidity; DhtReadTemperature] /\
  (forall i,
     0 <= i < ONE_WIRE_CNT -> length (dsT st) = 3%nat ->
     exists st',
       readDS env i st = Some st' /\
       trace st' = trace st ++ [DsRequestTemperatures i; DsGetTempCByIndex i]).
Proof.
  split; [exact (proj1 (setup_globals env))|].
  split; [intros Hf; unfold readBMP; rewrite Hf; reflexivity|].
  split.
  { intros Hf. unfold readBMP. rewrite Hf. cbn. now rewrite <- app_assoc. }
  split; [exact (initDS_globals env st)|].
  split.
  { unfold readDHT. cbn.
    match goal with |- context [if ?c then _ else _] => destruct c end;
      cbn; now rewrite <- app_assoc. }
  intros i Hi Hds.
  destruct (readDS_spec env i st Hi Hds) as (st' & Hr & H).
  exists st'. split; [exact Hr|]. decompose [and] H. assumption.
Qed.

Lemma absent_device_guard_witness :
  trace (readBMP unplugged (setup unplugged initial_state))
  = trace (setup unplugged initial_state) /\
  trace (readBMP bench (setup bench initial_state))
  = trace (setup bench initial_state) ++ [BmpReadPressure; BmpReadTemperature] /\
  exists st',
    readDS unplugged 1 (setup unplugged initial_state) = Some st' /\
    trace st' = trace (setup unplugged initial_state)
                ++ [DsRequestTemperatures 1; DsGetTempCByIndex 1].
Proof.
  split; [|split].
  - apply (absent_device_guard unplugged (setup unplugged initial_state)).
    reflexivity.
  - apply (absent_device_guard bench (setup bench initial_state)).
    reflexivity.
  - apply (absent_device_guard unplugged (setup unplugged initial_state)).
    + unfold ONE_WIRE_CNT. lia.
    + reflexivity.
Defined.

(** * Further properties of the code *)

(** ** Checksum engine *)

Lemma word_split_all : for_all_bytes2 word_split_ok = true.
Proof. vm_compute. reflexivity. Qed.

Lemma lo_table_inj_all : for_all_bytes2 lo_table_inj_ok = true.
Proof. vm_compute. reflexivity. Qed.

Lemma hi_table_all : forallb hi_table_ok all_bytes = true.
Proof. vm_compute. reflexivity. Qed.

Lemma word_of_split hi lo :
  is_byte hi -> is_byte lo ->
  word_of hi lo mod 256 = lo /\ word_of hi lo / 256 = hi.
Proof.
  intros Hhi Hlo.
  pose proof (for_all_bytes2_spec _ word_split_all hi lo Hhi Hlo) as H.
  unfold word_split_ok in H. apply andb_true_iff in H as [H1 H2].
  split; apply Z.eqb_eq; assumption.
Qed.

Lemma Forall_firstn {A} (P : A -> Prop) n : forall l,
  Forall P l -> Forall P (firstn n l).
Proof.
  induction n as [|n IH]; intros [|x l] H; cbn [firstn]; try constructor.
  - inversion H; assumption.
  - apply IH. inversion H; assumption.
Qed.

(** [CRC16] looks at the first [len] bytes and at nothing behind them, and
    its result fits in 16 bits. *)
Theorem CRC16_window buf len :
  Forall is_byte buf -> (len <= length buf)%nat ->
  exists c, CRC16 buf len = Some c /\ 0 <= c < 65536 /\
            CRC16 (firstn len buf) len = Some c /\
            forall rest, CRC16 (firstn len buf ++ rest) len = Some c.
Proof.
  intros Hall Hlen.
  pose proof (Forall_firstn is_byte len buf Hall) as Hfirst.
  assert (Hl : length (firstn len buf) = len) by (rewrite length_firstn; lia).
  exists (crc16_reference (firstn len buf)).
  split; [exact (CRC16_prefix buf len Hlen Hfirst)|]. split; [|split].
  - pose proof (crc16_reference_uint _ Hfirst) as Hu. unfold to_uint in Hu.
    rewrite <- Hu. apply Z.mod_pos_bound. lia.
  - rewrite CRC16_prefix.
    + rewrite firstn_firstn, Nat.min_id. reflexivity.
    + lia.
    + rewrite firstn_firstn, Nat.min_id. exact Hfirst.
  - intros rest.
    assert (Hf : firstn len (firstn len buf ++ rest) = firstn len buf).
    { rewrite <- Hl at 1. rewrite firstn_app, firstn_all, Nat.sub_diag.
      cbn [firstn]. apply app_nil_r. }
    rewrite CRC16_prefix; rewrite ?Hf; auto.
    rewrite length_app. lia.
Qed.

Lemma CRC16_window_witness :
  exists c, CRC16 (check_vector ++ [0x55; 0xAA]) 9 = Some c /\ 0 <= c < 65536 /\
            CRC16 (firstn 9 (check_vector ++ [0x55; 0xAA])) 9 = Some c /\
            forall rest,
              CRC16 (firstn 9 (check_vector ++ [0x55; 0xAA]) ++ rest) 9 = Some c.
Proof.
  apply (CRC16_window (check_vector ++ [0x55; 0xAA]) 9).
  - repeat constructor; unfold is_byte; lia.
  - simpl. lia.
Defined.

Lemma CRC16_loop_append a : forall b n hi lo,
  CRC16_loop (a ++ b) (length a + n) hi lo =
  ('(h, l) <- CRC16_loop a (length a) hi lo ;; CRC16_loop b n h l).
Proof.
  induction a as [|x a IH]; intros b n hi lo.
  - reflexivity.
  - cbn [app length Nat.add CRC16_loop].
    destruct (array_get crcHiTable (to_uint (Z.lxor lo x))) as [h|]; [|reflexivity].
    destruct (array_get crcLoTable (to_uint (Z.lxor lo x))) as [l|]; [|reflexivity].
    cbn [bind]. apply IH.
Qed.

(** The loop of [CRC16] can be stopped and resumed at any position [n]:
    running it over [len] bytes is running it over the first [n] and then,
    from the two bytes of state that run left, over the remaining
    [len - n] from position [n] on. *)
Theorem CRC16_loop_resumable buf len n hi lo :
  (n <= len)%nat -> (n <= length buf)%nat ->
  CRC16_loop buf len hi lo =
  ('(h, l) <- CRC16_loop buf n hi lo ;; CRC16_loop (skipn n buf) (len - n) h l).
Proof.
  intros Hn Hlen.
  assert (Hl : length (firstn n buf) = n) by (rewrite length_firstn; lia).
  pose proof (firstn_skipn n buf) as E.
  assert (E1 : CRC16_loop buf len hi lo
               = CRC16_loop (firstn n buf ++ skipn n buf)
                            (length (firstn n buf) + (len - n)) hi lo).
  { rewrite E. f_equal. lia. }
  assert (E2 : CRC16_loop buf n hi lo
               = CRC16_loop (firstn n buf ++ skipn n buf)
                            (length (firstn n buf) + 0) hi lo).
  { rewrite E. f_equal. lia. }
  rewrite E1, E2, !CRC16_loop_append. cbn [CRC16_loop].
  destruct (CRC16_loop (firstn n buf) (length (firstn n buf)) hi lo) as [[h l]|];
    reflexivity.
Qed.

Lemma CRC16_loop_resumable_witness :
  CRC16_loop check_vector 9 0xFF 0xFF =
  ('(h, l) <- CRC16_loop check_vector 4 0xFF 0xFF ;;
   CRC16_loop (skipn 4 check_vector) (9 - 4) h l).
Proof.
  apply (CRC16_loop_resumable check_vector 9 4); simpl; lia.
Defined.

Lemma CRC16_loop_total buf hi lo :
  Forall is_byte buf -> is_byte hi -> is_byte lo ->
  exists hi' lo', CRC16_loop buf (length buf) hi lo = Some (hi', lo') /\
                  is_byte hi' /\ is_byte lo'.
Proof.
  intros Hall Hhi Hlo.
  destruct (CRC16_loop_reference (length buf) buf hi lo) as (h & l & Hr & Hh & Hl & _);
    rewrite ?firstn_all; auto.
  exists h, l. auto.
Qed.

(** Feeding the register its own two bytes, low byte first, clears it. *)
Lemma CRC16_loop_own_bytes hi lo :
  is_byte hi -> is_byte lo -> CRC16_loop [lo; hi] 2 hi lo = Some (0, 0).
Proof.
  intros Hhi Hlo. cbn [CRC16_loop].
  rewrite Z.lxor_nilpotent. change (to_uint 0) with 0.
  change (array_get crcHiTable 0) with (Some 0).
  change (array_get crcLoTable 0) with (Some 0).
  cbn [bind]. rewrite Z.lxor_0_r, (to_byte_id hi Hhi).
  rewrite Z.lxor_nilpotent. change (to_uint 0) with 0.
  change (array_get crcHiTable 0) with (Some 0).
  change (array_get crcLoTable 0) with (Some 0).
  reflexivity.
Qed.

Lemma CRC16_own_checksum b c :
  Forall is_byte b -> CRC16 b (length b) = Some c ->
  CRC16 (b ++ [c mod 256; c / 256]) (length b + 2) = Some 0.
Proof.
  intros Hall Hc.
  destruct (CRC16_loop_total b 0xFF 0xFF Hall) as (hi & lo & Hr & Hhi & Hlo);
    try (unfold is_byte; lia).
  assert (Ec : c = word_of hi lo).
  { unfold CRC16 in Hc. rewrite Hr in Hc. cbn [bind] in Hc.
    fold (word_of hi lo) in Hc. rewrite (word_of_uint hi lo Hhi Hlo) in Hc.
    congruence. }
  subst c. unfold CRC16.
  destruct (word_of_split hi lo Hhi Hlo) as [-> ->].
  rewrite CRC16_loop_append, Hr. cbn [bind].
  rewrite (CRC16_loop_own_bytes hi lo Hhi Hlo). reflexivity.
Qed.

(** The receiver's test: a buffer followed by the two bytes of its own
    checksum, as [communicate] appends them, has checksum zero. *)
Theorem CRC16_residue b c :
  Forall is_byte b -> CRC16 b (length b) = Some c ->
  CRC16 (b ++ ushort_bytes c) (length b + 2) = Some 0.
Proof.
  intros Hall Hc. unfold ushort_bytes.
  assert (Hr : 0 <= c < 65536).
  { rewrite (CRC16_prefix b (length b)) in Hc;
      [|lia|rewrite firstn_all; exact Hall].
    rewrite firstn_all in Hc. injection Hc as Hc. rewrite <- Hc.
    pose proof (crc16_reference_uint _ Hall) as Hu. unfold to_uint in Hu.
    rewrite <- Hu. apply Z.mod_pos_bound. lia. }
  replace ((c / 256) mod 256) with (c / 256)
    by (Z.div_mod_to_equations; lia).
  exact (CRC16_own_checksum b c Hall Hc).
Qed.

Lemma CRC16_residue_witness :
  CRC16 (check_vector ++ [0x37; 0x4B]) 11 = Some 0.
Proof.
  apply (CRC16_residue check_vector 0x4B37).
  - repeat constructor; unfold is_byte; lia.
  - vm_compute. reflexivity.
Defined.

Lemma hi_table_byte idx h :
  is_byte idx -> array_get crcHiTable idx = Some h -> is_byte h.
Proof.
  intros Hidx Hget.
  pose proof hi_table_all as H. rewrite forallb_forall in H.
  specialize (H idx (in_all_bytes idx Hidx)). unfold hi_table_ok in H.
  rewrite Hget in H. apply is_byteb_spec. exact H.
Qed.

Lemma lo_table_inj i j a :
  is_byte i -> is_byte j ->
  array_get crcLoTable i = Some a -> array_get crcLoTable j = Some a -> i = j.
Proof.
  intros Hi Hj Ha Hb.
  pose proof (for_all_bytes2_spec _ lo_table_inj_all i j Hi Hj) as H.
  unfold lo_table_inj_ok in H. rewrite Ha, Hb in H.
  rewrite Z.eqb_refl in H. cbn [negb] in H. rewrite orb_false_r in H.
  apply Z.eqb_eq. exact H.
Qed.

Lemma xor_byte a b :
  is_byte a -> is_byte b ->
  is_byte (Z.lxor a b) /\ to_uint (Z.lxor a b) = Z.lxor a b.
Proof.
  intros Ha Hb.
  pose proof (for_all_bytes2_spec _ xor_ok_all a b Ha Hb) as H.
  unfold xor_ok in H. apply andb_true_iff in H as [H1 H2].
  split; [apply is_byteb_spec | apply Z.eqb_eq]; assumption.
Qed.

Lemma lxor_cancel_r a b x : Z.lxor a x = Z.lxor b x -> a = b.
Proof.
  intros H.
  rewrite <- (Z.lxor_0_r a), <- (Z.lxor_0_r b), <- (Z.lxor_nilpotent x).
  rewrite <- !Z.lxor_assoc. now rewrite H.
Qed.

(** One turn of the loop loses nothing: from what it leaves, both the state
    before and the byte read can be told. *)
Lemma CRC16_turn_inj hi lo x hi' lo' x' h l h' l' :
  is_byte hi -> is_byte lo -> is_byte x ->
  is_byte hi' -> is_byte lo' -> is_byte x' ->
  array_get crcHiTable (to_uint (Z.lxor lo x)) = Some h ->
  array_get crcLoTable (to_uint (Z.lxor lo x)) = Some l ->
  array_get crcHiTable (to_uint (Z.lxor lo' x')) = Some h' ->
  array_get crcLoTable (to_uint (Z.lxor lo' x')) = Some l' ->
  l = l' -> to_byte (Z.lxor hi h) = to_byte (Z.lxor hi' h') ->
  hi = hi' /\ Z.lxor lo x = Z.lxor lo' x'.
Proof.
  intros Hhi Hlo Hx Hhi' Hlo' Hx' Gh Gl Gh' Gl' El Eb.
  destruct (xor_byte lo x Hlo Hx) as [B1 U1].
  destruct (xor_byte lo' x' Hlo' Hx') as [B2 U2].
  rewrite U1 in Gh, Gl. rewrite U2 in Gh', Gl'. subst l'.
  pose proof (lo_table_inj _ _ _ B1 B2 Gl Gl') as Eidx.
  split; [|exact Eidx].
  rewrite <- Eidx in Gh'. rewrite Gh in Gh'. injection Gh' as <-.
  pose proof (hi_table_byte _ _ B1 Gh) as Bh.
  rewrite (to_byte_id _ (proj1 (xor_byte hi h Hhi Bh))) in Eb.
  rewrite (to_byte_id _ (proj1 (xor_byte hi' h Hhi' Bh))) in Eb.
  exact (lxor_cancel_r hi hi' h Eb).
Qed.

Lemma CRC16_loop_inj s : forall hi lo hi' lo' r,
  Forall is_byte s ->
  is_byte hi -> is_byte lo -> is_byte hi' -> is_byte lo' ->
  CRC16_loop s (length s) hi lo = Some r ->
  CRC16_loop s (length s) hi' lo' = Some r ->
  hi = hi' /\ lo = lo'.
Proof.
  induction s as [|x s IH]; intros hi lo hi' lo' r Hall Hhi Hlo Hhi' Hlo' R1 R2.
  - cbn in R1, R2. rewrite <- R2 in R1. now injection R1.
  - inversion Hall as [|? ? Hx Hs]; subst.
    destruct (CRC16_step hi lo x Hhi Hlo Hx) as (h & l & Gh & Gl & Bl & Bn & _).
    destruct (CRC16_step hi' lo' x Hhi' Hlo' Hx) as (h' & l' & Gh' & Gl' & Bl' & Bn' & _).
    cbn [length CRC16_loop] in R1, R2.
    rewrite Gh, Gl in R1. rewrite Gh', Gl' in R2. cbn [bind] in R1, R2.
    destruct (IH _ _ _ _ r Hs Bl Bn Bl' Bn' R1 R2) as [El Eb].
    destruct (CRC16_turn_inj hi lo x hi' lo' x h l h' l'
                Hhi Hlo Hx Hhi' Hlo' Hx Gh Gl Gh' Gl' El Eb) as [E1 E2].
    split; [exact E1 | exact (lxor_cancel_r lo lo' x E2)].
Qed.

(** A fault confined to one byte never goes unnoticed: two buffers that
    differ in exactly one position have different checksums. *)
Theorem CRC16_detects_byte_error p a b s :
  Forall is_byte p -> Forall is_byte s -> is_byte a -> is_byte b -> a <> b ->
  exists c1 c2,
    CRC16 (p ++ a :: s) (length p + S (length s)) = Some c1 /\
    CRC16 (p ++ b :: s) (length p + S (length s)) = Some c2 /\
    c1 <> c2.
Proof.
  intros Hp Hs Ha Hb Hab. unfold CRC16.
  destruct (CRC16_loop_total p 0xFF 0xFF Hp) as (h0 & l0 & R0 & Bh0 & Bl0);
    try (unfold is_byte; lia).
  rewrite !CRC16_loop_append, R0. cbn [bind].
  destruct (CRC16_loop_total (a :: s) h0 l0 (Forall_cons a Ha Hs) Bh0 Bl0)
    as (h1 & l1 & R1 & Bh1 & Bl1).
  destruct (CRC16_loop_total (b :: s) h0 l0 (Forall_cons b Hb Hs) Bh0 Bl0)
    as (h2 & l2 & R2 & Bh2 & Bl2).
  cbn [length] in R1, R2. rewrite R1, R2. cbn [bind].
  fold (word_of h1 l1). fold (word_of h2 l2).
  rewrite (word_of_uint h1 l1 Bh1 Bl1), (word_of_uint h2 l2 Bh2 Bl2).
  exists (word_of h1 l1), (word_of h2 l2). repeat split.
  intros Eq.
  destruct (word_of_split h1 l1 Bh1 Bl1) as [S1 S2].
  destruct (word_of_split h2 l2 Bh2 Bl2) as [T1 T2].
  rewrite Eq in S1, S2. rewrite S1 in T1. rewrite S2 in T2. subst h2 l2.
  destruct (CRC16_step h0 l0 a Bh0 Bl0 Ha) as (h & l & Gh & Gl & Bl & Bn & _).
  destruct (CRC16_step h0 l0 b Bh0 Bl0 Hb) as (h' & l' & Gh' & Gl' & Bl' & Bn' & _).
  cbn [CRC16_loop] in R1, R2.
  rewrite Gh, Gl in R1. rewrite Gh', Gl' in R2. cbn [bind] in R1, R2.
  destruct (CRC16_loop_inj s _ _ _ _ _ Hs Bl Bn Bl' Bn' R1 R2) as [El Eb].
  destruct (CRC16_turn_inj h0 l0 a h0 l0 b h l h' l'
              Bh0 Bl0 Ha Bh0 Bl0 Hb Gh Gl Gh' Gl' El Eb) as [_ E2].
  apply Hab. rewrite (Z.lxor_comm l0 a), (Z.lxor_comm l0 b) in E2.
  exact (lxor_cancel_r a b l0 E2).
Qed.

Lemma CRC16_detects_byte_error_witness :
  exists c1 c2,
    CRC16 ([0x00; 0x03] ++ 0x1C :: [0x2A]) 4 = Some c1 /\
    CRC16 ([0x00; 0x03] ++ 0x1D :: [0x2A]) 4 = Some c2 /\
    c1 <> c2.
Proof.
  apply (CRC16_detects_byte_error [0x00; 0x03] 0x1C 0x1D [0x2A]);
    repeat constructor; unfold is_byte; lia.
Defined.

(** ** The link protocol handler, continued *)

(** However [communicate] ends, the pending input is gone. *)
Lemma communicate_drained st st' :
  communicate st = Some st' -> serialIn st' = [].
Proof.
  unfold communicate.
  destruct (drain (serialIn st) false).
  - intros H.
    repeat match type of H with
           | bind ?c _ = Some _ =>
               destruct c; cbn [bind] in H; [|discriminate H]
           end.
    unfold Serial_write in H.
    match type of H with
    | (if ?c then _ else _) = _ => destruct c; [discriminate H|]
    end.
    injection H as <-. reflexivity.
  - intros [= <-]. reflexivity.
Qed.

(** A request is answered once: a second call of the handler right after
    the first finds nothing to do and changes nothing. *)
Theorem communicate_once st st' :
  communicate st = Some st' -> communicate st' = Some st'.
Proof.
  intros H. pose proof (communicate_drained st st' H) as Hin.
  unfold communicate. rewrite Hin. cbn [drain].
  destruct st'. cbn [serialIn] in Hin. subst. reflexivity.
Qed.

Lemma communicate_once_witness :
  communicate asked = Some asked_after /\
  communicate asked_after = Some asked_after.
Proof.
  assert (H : communicate asked = Some asked_after) by (vm_compute; reflexivity).
  split; [exact H|]. exact (communicate_once asked asked_after H).
Defined.

Lemma response_frame_same st1 st2 :
  readings st1 = readings st2 -> response_frame st1 = response_frame st2.
Proof. unfold response_frame, frame_body. now intros ->. Qed.

(** A frame is built afresh from the readings alone: whatever an earlier
    response left in the buffer, two states with the same readings answer
    with the same frame, and the buffer then holds that frame. *)
Theorem frame_fresh st1 st2 :
  wf st1 -> wf st2 -> readings st1 = readings st2 ->
  In 0xDF (serialIn st1) -> In 0xDF (serialIn st2) ->
  exists frame st1' st2',
    communicate st1 = Some st1' /\ communicate st2 = Some st2' /\
    trace st1' = trace st1 ++ [SerialWrite frame] /\
    trace st2' = trace st2 ++ [SerialWrite frame] /\
    modbusBuf st1' = frame /\ modbusBuf st2' = frame.
Proof.
  intros W1 W2 Hr I1 I2.
  pose proof (communicate_armed st1 W1 (drain_In _ I1)) as C1.
  pose proof (communicate_armed st2 W2 (drain_In _ I2)) as C2.
  rewrite <- (response_frame_same st1 st2 Hr) in C2.
  exists (response_frame st1). eexists. eexists.
  split; [exact C1|]. split; [exact C2|]. repeat split.
Qed.

Lemma frame_fresh_witness :
  exists frame st1' st2',
    communicate asked = Some st1' /\ communicate asked_after_request = Some st2' /\
    trace st1' = trace asked ++ [SerialWrite frame] /\
    trace st2' = trace asked_after_request ++ [SerialWrite frame] /\
    modbusBuf st1' = frame /\ modbusBuf st2' = frame.
Proof.
  apply (frame_fresh asked asked_after_request).
  - repeat split.
  - vm_compute. repeat split.
  - vm_compute. reflexivity.
  - simpl. tauto.
  - vm_compute. tauto.
Defined.

(** ** The sensor steps *)

Lemma array_set_get {A} (a a' : list A) i v j :
  array_set a i v = Some a' ->
  array_get a' j = if j =? i then Some v else array_get a j.
Proof.
  unfold array_set.
  destruct ((i <? 0) || (Z.of_nat (length a) <=? i)) eqn:Hb; [discriminate|].
  apply orb_false_iff in Hb as [H0 H1]. intros [= <-].
  unfold array_get. destruct (j <? 0) eqn:Hj.
  - replace (j =? i) with false by (symmetry; apply Z.eqb_neq; lia). reflexivity.
  - assert (Hlen : length (firstn (Z.to_nat i) a) = Z.to_nat i)
      by (rewrite length_firstn; lia).
    destruct (j =? i) eqn:Hji.
    + apply Z.eqb_eq in Hji. subst j.
      rewrite nth_error_app2 by lia. rewrite Hlen, Nat.sub_diag. reflexivity.
    + apply Z.eqb_neq in Hji.
      destruct (Z_lt_le_dec j i) as [Hlt|Hge].
      * rewrite nth_error_app1 by lia. rewrite nth_error_firstn.
        replace (Z.to_nat j <? Z.to_nat i)%nat with true
          by (symmetry; apply Nat.ltb_lt; lia).
        reflexivity.
      * rewrite nth_error_app2 by lia. rewrite Hlen.
        replace (Z.to_nat j - Z.to_nat i)%nat
          with (S (Z.to_nat j - Z.to_nat i - 1)) by lia.
        cbn [nth_error]. rewrite nth_error_skipn. f_equal. lia.
Qed.

Section Steps.

Variable env : Devices.

Lemma readBMP_effect st :
  bmpFound (readBMP env st) = bmpFound st /\
  dhtH (readBMP env st) = dhtH st /\ dhtT (readBMP env st) = dhtT st /\
  dsT (readBMP env st) = dsT st /\ modbusBuf (readBMP env st) = modbusBuf st /\
  trace (readBMP env st)
  = trace st ++ (if bmpFound st then [BmpReadPressure; BmpReadTemperature] else []).
Proof.
  unfold readBMP. destruct (bmpFound st) eqn:Hf; cbn.
  - rewrite <- app_assoc. repeat split; auto.
  - rewrite app_nil_r. repeat split; auto.
Qed.

Lemma readDHT_effect st :
  bmpFound (readDHT env st) = bmpFound st /\
  bmpP (readDHT env st) = bmpP st /\ bmpT (readDHT env st) = bmpT st /\
  dsT (readDHT env st) = dsT st /\ modbusBuf (readDHT env st) = modbusBuf st /\
  trace (readDHT env st) = trace st ++ [DhtReadHumidity; DhtReadTemperature].
Proof.
  unfold readDHT. cbn.
  match goal with |- context [if ?c then _ else _] => destruct c end;
    cbn; rewrite <- app_assoc; repeat split; auto.
Qed.

Lemma readDHT_values st :
  isnan (dhtH (readDHT env st)) = false /\
  isnan (dhtT (readDHT env st)) = false /\
  ((dhtH (readDHT env st) = EMPTY_VAL /\ dhtT (readDHT env st) = EMPTY_VAL) \/
   (dhtH (readDHT env st) = dht_readHumidity env (length (trace st)) /\
    dhtT (readDHT env st) = dht_readTemperature env (S (length (trace st))))).
Proof.
  unfold readDHT.
  cbn [driver_read driver_call set_dhtH set_dhtT dhtH dhtT trace].
  rewrite length_app, Nat.add_comm. cbn [length Nat.add].
  destruct (isnan (dht_readHumidity env (length (trace st)))) eqn:Hh;
    destruct (isnan (dht_readTemperature env (S (length (trace st))))) eqn:Ht;
    cbn; auto.
Qed.

Lemma readDS_effect i st st' :
  readDS env i st = Some st' ->
  0 <= i < ONE_WIRE_CNT /\
  bmpFound st' = bmpFound st /\
  bmpP st' = bmpP st /\ bmpT st' = bmpT st /\
  dhtH st' = dhtH st /\ dhtT st' = dhtT st /\
  modbusBuf st' = modbusBuf st /\
  (forall j, array_get (dsT st') j
             = if j =? i
               then Some (ds_getTempCByIndex env i (S (length (trace st))))
               else array_get (dsT st) j) /\
  serialIn st' = serialIn st ++ serial_rx env (length (trace st))
                 ++ serial_rx env (S (length (trace st))) /\
  trace st' = trace st ++ [DsRequestTemperatures i; DsGetTempCByIndex i].
Proof.
  unfold readDS.
  destruct ((i <? 0) || (ONE_WIRE_CNT <=? i)) eqn:Hb; [discriminate|].
  apply orb_false_iff in Hb as [H0 H1].
  cbn [driver_read driver_call trace dsT].
  rewrite length_app, Nat.add_comm. cbn [length Nat.add].
  destruct (array_set (dsT st) i
              (ds_getTempCByIndex env i (S (length (trace st))))) as [a|] eqn:Hset;
    [|discriminate].
  cbn [bind]. intros [= <-]. cbn. rewrite <- !app_assoc.
  rewrite ?length_app. cbn [length]. rewrite ?Nat.add_1_r.
  split; [lia|]. repeat (split; [reflexivity|]).
  split; [intros j; exact (array_set_get _ _ _ _ j Hset)|].
  split; reflexivity.
Qed.

(** Each sensor step writes its own channels only. *)
Theorem sensor_steps_own_channels st :
  (dhtH (readBMP env st) = dhtH st /\ dhtT (readBMP env st) = dhtT st /\
   dsT (readBMP env st) = dsT st) /\
  (bmpP (readDHT env st) = bmpP st /\ bmpT (readDHT env st) = bmpT st /\
   dsT (readDHT env st) = dsT st) /\
  (forall i st',
     readDS env i st = Some st' ->
     bmpP st' = bmpP st /\ bmpT st' = bmpT st /\
     dhtH st' = dhtH st /\ dhtT st' = dhtT st /\
     forall j, j <> i -> array_get (dsT st') j = array_get (dsT st) j).
Proof.
  split; [|split].
  - destruct (readBMP_effect st) as (_ & H1 & H2 & H3 & _). auto.
  - destruct (readDHT_effect st) as (_ & H1 & H2 & H3 & _). auto.
  - intros i st' Hr.
    destruct (readDS_effect i st st' Hr) as (_ & _ & H1 & H2 & H3 & H4 & _ & H5 & _).
    repeat (split; [assumption|]).
    intros j Hj. rewrite H5.
    replace (j =? i) with false by (symmetry; apply Z.eqb_neq; exact Hj).
    reflexivity.
Qed.

(** The humidity channels never hold a NaN: a read leaves either both
    driver answers or the sentinel in both, and no other step writes them. *)
Theorem humidity_never_nan st :
  reachable env st -> isnan (dhtH st) = false /\ isnan (dhtT st) = false.
Proof.
  induction 1 as [|st _ IH|st _ IH|i st st' _ IH Hr|st st' Hre IH Hc].
  - destruct (setup_globals env) as (_ & H2 & _).
    unfold readings in H2. cbn [app] in H2.
    injection H2 as _ _ -> -> _. split; reflexivity.
  - destruct (readBMP_effect st) as (_ & -> & -> & _). exact IH.
  - destruct (readDHT_values st) as (H1 & H2 & _). auto.
  - destruct (readDS_effect i st st' Hr) as (_ & _ & _ & _ & -> & -> & _). exact IH.
  - destruct (communicate_spec st (reachable_wf env st Hre))
      as (s & Hs & _ & R' & _).
    rewrite Hs in Hc. injection Hc as <-.
    unfold readings in R'. cbn [app] in R'. injection R' as _ _ -> -> _. exact IH.
Qed.

(** Detection happens once: [bmpFound] is what [bmp.begin] answered during
    [setup], for as long as the sketch runs. *)
Theorem bmpFound_fixed st :
  reachable env st -> bmpFound st = bmp_begin env.
Proof.
  induction 1 as [|st _ IH|st _ IH|i st st' _ IH Hr|st st' Hre IH Hc].
  - exact (proj1 (setup_globals env)).
  - destruct (readBMP_effect st) as (-> & _). exact IH.
  - destruct (readDHT_effect st) as (-> & _). exact IH.
  - destruct (readDS_effect i st st' Hr) as (_ & -> & _). exact IH.
  - destruct (communicate_spec st (reachable_wf env st Hre))
      as (s & Hs & F' & _).
    rewrite Hs in Hc. injection Hc as <-. rewrite F'. exact IH.
Qed.

End Steps.

Lemma sensor_steps_own_channels_witness :
  bmpP unplugged_read = bmpP (setup unplugged initial_state) /\
  array_get (dsT unplugged_read) 1 = Some EMPTY_VAL /\
  array_get (dsT unplugged_read) 2 = Some EMPTY_VAL.
Proof.
  assert (H : readDS unplugged 0 (setup unplugged initial_state) = Some unplugged_read)
    by (vm_compute; reflexivity).
  destruct (proj2 (proj2 (sensor_steps_own_channels unplugged
                            (setup unplugged initial_state))) 0 unplugged_read H)
    as (H1 & _ & _ & _ & H5).
  split; [exact H1|]. split.
  - rewrite (H5 1) by lia. vm_compute. reflexivity.
  - rewrite (H5 2) by lia. vm_compute. reflexivity.
Defined.

Lemma humidity_never_nan_witness :
  isnan (dhtH (readDHT glitchy (setup glitchy initial_state))) = false /\
  isnan (dhtT (readDHT glitchy (setup glitchy initial_state))) = false.
Proof.
  apply (humidity_never_nan glitchy).
  apply reach_readDHT. apply reach_setup.
Defined.

Lemma bmpFound_fixed_witness :
  bmpFound (readBMP bench (setup bench initial_state)) = true.
Proof.
  apply (bmpFound_fixed bench (readBMP bench (setup bench initial_state))).
  apply reach_readBMP. apply reach_setup.
Defined.

(** ** Start-up *)

Lemma setup_trace_eq env : trace (setup env initial_state) = setup_trace env.
Proof.
  unfold setup_trace, setup, initDS, initDHT, initBMP.
  change (map Z.of_nat (seq 0 (Z.to_nat ONE_WIRE_CNT))) with [0; 1; 2].
  cbn [fold_left flat_map]. unfold initDS_body.
  destruct (bmp_begin env), (ds_getAddress env 0), (ds_getAddress env 1),
    (ds_getAddress env 2); reflexivity.
Qed.

(** What [setup] does to the devices and to the readings: the readings stay
    at the sentinel; the pressure sensor is configured exactly when it
    answered [begin]; each of the three probes is started and asked for its
    address, and its resolution is set exactly when the address was found. *)
Theorem setup_configures env :
  readings (setup env initial_state) = repeat EMPTY_VAL 7 /\
  (In BmpSetSampling (trace (setup env initial_state)) <-> bmp_begin env = true) /\
  (forall i, In (DsBegin i) (trace (setup env initial_state))
             <-> 0 <= i < ONE_WIRE_CNT) /\
  (forall i, In (DsSetResolution i) (trace (setup env initial_state))
             <-> 0 <= i < ONE_WIRE_CNT /\ ds_getAddress env i = true).
Proof.
  split; [exact (proj1 (proj2 (setup_globals env)))|].
  rewrite setup_trace_eq. unfold setup_trace, ONE_WIRE_CNT. cbn [flat_map].
  destruct (bmp_begin env) eqn:B, (ds_getAddress env 0) eqn:A0,
    (ds_getAddress env 1) eqn:A1, (ds_getAddress env 2) eqn:A2;
    cbn [app In];
    (split; [split; [intros H; repeat (destruct H as [H|H]; try discriminate H);
                     try reflexivity; try contradiction
                    |intros H; try discriminate H; tauto]|]);
    (split; intros i; (split;
      [intros H;
       repeat (destruct H as [H|H];
               [try discriminate H;
                try (injection H as <-; first [lia | split; [lia | assumption]])|]);
       contradiction
      |intros H;
       assert (Hi : i = 0 \/ i = 1 \/ i = 2) by lia;
       destruct Hi as [-> | [-> | ->]];
       try (destruct H as [_ H]; congruence); tauto])).
Qed.

Lemma setup_configures_witness :
  In (DsSetResolution 1) (trace (setup bench initial_state)) /\
  ~ In (DsSetResolution 1) (trace (setup unplugged initial_state)) /\
  ~ In BmpSetSampling (trace (setup unplugged initial_state)).
Proof.
  split; [|split].
  - apply (proj2 (proj2 (proj2 (setup_configures bench))) 1).
    split; [unfold ONE_WIRE_CNT; lia | reflexivity].
  - intros H.
    apply (proj2 (proj2 (proj2 (setup_configures unplugged))) 1) in H.
    destruct H as [_ H]. discriminate H.
  - intros H. apply (proj1 (proj2 (setup_configures unplugged))) in H.
    discriminate H.
Defined.

(** ** Everything the sketch sends *)

Lemma writes_app a b : writes (a ++ b) = writes a ++ writes b.
Proof. unfold writes. apply flat_map_app. Qed.

Lemma In_writes buf tr : In (SerialWrite buf) tr <-> In buf (writes tr).
Proof.
  unfold writes. rewrite in_flat_map. split.
  - intros H. exists (SerialWrite buf). split; [exact H | left; reflexivity].
  - intros (e & He & Hin). destruct e; try contradiction.
    destruct Hin as [<- | []]. exact He.
Qed.

Lemma frame_body_length st :
  length (dsT st) = 3%nat -> length (frame_body st) = 31%nat.
Proof.
  destruct st as [found p t h ht ds buf rx tr]. cbn [dsT]. intros Hds.
  destruct ds as [|d0 [|d1 [|d2 [|? ?]]]]; try discriminate Hds.
  reflexivity.
Qed.

Lemma response_frame_valid st :
  length (dsT st) = 3%nat -> valid_frame (response_frame st).
Proof.
  intros Hds. unfold valid_frame.
  split; [exact (response_frame_length st Hds)|].
  split; [exact (response_frame_header st)|].
  pose proof (frame_body_bytes st) as Hbytes.
  pose proof (frame_body_length st Hds) as Hlen.
  assert (Hc : CRC16 (frame_body st) (length (frame_body st))
               = Some (crc16_reference (frame_body st))).
  { rewrite CRC16_prefix; rewrite ?firstn_all; auto. }
  pose proof (CRC16_own_checksum _ _ Hbytes Hc) as Hres.
  rewrite Hlen in Hres. unfold response_frame, ushort_bytes, MODBUS_BUF_LEN.
  replace ((crc16_reference (frame_body st) / 256) mod 256)
    with (crc16_reference (frame_body st) / 256); [exact Hres|].
  pose proof (crc16_reference_uint _ Hbytes) as Hu. unfold to_uint in Hu.
  Z.div_mod_to_equations. lia.
Qed.

Section Output.

Variable env : Devices.

Lemma setup_writes : writes (trace (setup env initial_state)) = [].
Proof.
  rewrite setup_trace_eq. unfold setup_trace. cbn [flat_map].
  destruct (bmp_begin env), (ds_getAddress env 0), (ds_getAddress env 1),
    (ds_getAddress env 2); reflexivity.
Qed.

Lemma readBMP_writes st : writes (trace (readBMP env st)) = writes (trace st).
Proof.
  destruct (readBMP_effect env st) as (_ & _ & _ & _ & _ & ->).
  rewrite writes_app. destruct (bmpFound st); cbn; apply app_nil_r.
Qed.

Lemma readDHT_writes st : writes (trace (readDHT env st)) = writes (trace st).
Proof.
  destruct (readDHT_effect env st) as (_ & _ & _ & _ & _ & ->).
  rewrite writes_app. cbn. apply app_nil_r.
Qed.

Lemma readDS_writes i st st' :
  readDS env i st = Some st' -> writes (trace st') = writes (trace st).
Proof.
  intros Hr.
  destruct (readDS_effect env i st st' Hr) as (_ & _ & _ & _ & _ & _ & _ & _ & _ & ->).
  rewrite writes_app. cbn. apply app_nil_r.
Qed.

(** Whatever reaches the line is a well-formed frame: 33 bytes, the fixed
    header, and a checksum that a receiver verifies to zero. *)
Theorem all_output_valid st buf :
  reachable env st -> In (SerialWrite buf) (trace st) -> valid_frame buf.
Proof.
  intros Hre. rewrite In_writes. revert buf.
  induction Hre as [|st _ IH|st _ IH|i st st' _ IH Hr|st st' Hre IH Hc];
    intros buf.
  - rewrite setup_writes. contradiction.
  - rewrite readBMP_writes. apply IH.
  - rewrite readDHT_writes. apply IH.
  - rewrite (readDS_writes i st st' Hr). apply IH.
  - pose proof (reachable_wf env st Hre) as Hwf.
    destruct (communicate_spec st Hwf) as (s & Hs & _ & _ & _ & _ & Htr).
    rewrite Hs in Hc. injection Hc as <-.
    rewrite Htr, writes_app, in_app_iff. intros [Hin | Hin]; [exact (IH buf Hin)|].
    unfold response in Hin. destruct (drain (serialIn st) false); [|contradiction].
    destruct Hin as [<- | []].
    apply response_frame_valid. exact (proj2 (proj2 Hwf)).
Qed.

(** *** A quiet line *)

Lemma drain_no_trigger rx : Forall no_trigger rx -> drain rx false = false.
Proof.
  intros Hall. rewrite drain_orb. cbn [orb].
  apply not_true_is_false. intros Hex.
  apply existsb_exists in Hex as (b & Hb & Heq).
  rewrite Forall_forall in Hall. apply (Hall b Hb).
  apply Z.eqb_eq. exact Heq.
Qed.

Lemma calm_same st st' :
  serialIn st' = serialIn st -> trace st' = trace st -> calm st -> calm st'.
Proof. unfold calm. intros -> ->. exact (fun H => H). Qed.

Lemma calm_driver_call e st :
  quiet env -> is_write e = false -> calm st -> calm (driver_call env e st).
Proof.
  intros Hq He [Hin Hw]. unfold calm, driver_call. cbn [serialIn trace]. split.
  - apply Forall_app. split; [exact Hin | apply Hq].
  - rewrite writes_app, Hw. destruct e; try discriminate He; reflexivity.
Qed.

Ltac calm_steps :=
  repeat match goal with
         | |- calm (driver_call _ _ _) =>
             apply calm_driver_call; [assumption | reflexivity |]
         | |- calm (set_bmpFound _ ?s) => apply (calm_same s); [reflexivity | reflexivity |]
         | |- calm (set_bmpP _ ?s) => apply (calm_same s); [reflexivity | reflexivity |]
         | |- calm (set_bmpT _ ?s) => apply (calm_same s); [reflexivity | reflexivity |]
         | |- calm (set_dhtH _ ?s) => apply (calm_same s); [reflexivity | reflexivity |]
         | |- calm (set_dhtT _ ?s) => apply (calm_same s); [reflexivity | reflexivity |]
         | |- calm (set_dsT _ ?s) => apply (calm_same s); [reflexivity | reflexivity |]
         | |- calm (set_serialIn [] ?s) =>
             let H := fresh in
             assert (H : calm s); [| split; [constructor | exact (proj2 H)]]
         end.

Lemma calm_setup : quiet env -> calm (setup env initial_state).
Proof.
  intros Hq. unfold setup, initDS, initDHT, initBMP.
  change (map Z.of_nat (seq 0 (Z.to_nat ONE_WIRE_CNT))) with [0; 1; 2].
  cbn [fold_left]. unfold initDS_body.
  destruct (bmp_begin env), (ds_getAddress env 0), (ds_getAddress env 1),
    (ds_getAddress env 2); calm_steps; (split; [constructor | reflexivity]).
Qed.

Lemma calm_readBMP st : quiet env -> calm st -> calm (readBMP env st).
Proof.
  intros Hq Hc. unfold readBMP, driver_read.
  destruct (bmpFound st); calm_steps; exact Hc.
Qed.

Lemma calm_readDHT st : quiet env -> calm st -> calm (readDHT env st).
Proof.
  intros Hq Hc. unfold readDHT, driver_read.
  match goal with |- context [if ?c then _ else _] => destruct c end;
    calm_steps; exact Hc.
Qed.

Lemma calm_readDS i st st' :
  quiet env -> calm st -> readDS env i st = Some st' -> calm st'.
Proof.
  intros Hq Hc. unfold readDS, driver_read.
  destruct ((i <? 0) || (ONE_WIRE_CNT <=? i)); [discriminate|].
  match goal with |- bind ?c _ = _ -> _ => destruct c end; [|discriminate].
  cbn [bind]. intros [= <-]. calm_steps. exact Hc.
Qed.

Lemma calm_communicate st st' :
  calm st -> communicate st = Some st' -> calm st'.
Proof.
  intros Hc. rewrite (communicate_idle st (drain_no_trigger _ (proj1 Hc))).
  intros [= <-]. calm_steps. exact Hc.
Qed.

(** The sketch speaks only when spoken to: on a line that never carries the
    trigger byte it never writes anything. *)
Theorem silent_unless_asked st :
  quiet env -> reachable env st ->
  forall buf, ~ In (SerialWrite buf) (trace st).
Proof.
  intros Hq Hre.
  assert (Hc : calm st).
  { induction Hre as [|st _ IH|st _ IH|i st st' _ IH Hr|st st' _ IH Hc].
    - exact (calm_setup Hq).
    - exact (calm_readBMP st Hq IH).
    - exact (calm_readDHT st Hq IH).
    - exact (calm_readDS i st st' Hq IH Hr).
    - exact (calm_communicate st st' IH Hc). }
  intros buf Hin. apply In_writes in Hin. rewrite (proj2 Hc) in Hin. exact Hin.
Qed.


End Output.

Lemma all_output_valid_witness :
  In (SerialWrite (modbusBuf bench_answered)) (trace bench_answered) /\
  valid_frame (modbusBuf bench_answered).
Proof.
  assert (Hin : In (SerialWrite (modbusBuf bench_answered)) (trace bench_answered))
    by (vm_compute; tauto).
  split; [exact Hin|].
  apply (all_output_valid bench bench_answered); [|exact Hin].
  apply (reach_communicate bench (readBMP bench (setup bench initial_state))).
  - apply reach_readBMP. apply reach_setup.
  - vm_compute. reflexivity.
Defined.

Lemma silent_unless_asked_witness :
  ~ In (SerialWrite [])
       (trace (readDHT glitchy (readBMP glitchy (setup glitchy initial_state)))) /\
  ~ In (SerialWrite (modbusBuf initial_state))
       (trace (readDHT glitchy (readBMP glitchy (setup glitchy initial_state)))).
Proof.
  assert (Hq : quiet glitchy) by (intros n; constructor).
  assert (Hre : reachable glitchy
                  (readDHT glitchy (readBMP glitchy (setup glitchy initial_state))))
    by (apply reach_readDHT; apply reach_readBMP; apply reach_setup).
  split; exact (silent_unless_asked glitchy _ Hq Hre _).
Defined.


(** ** One pass of the loop *)


Section Pass.

Variable env : Devices.



End Pass.

